(** * DashBoard.py: the filter-and-aggregate query layer

    A shallow embedding of [src/DashBoard.py].  The DataFrame returned by
    [load_data] is a list of rows, one record field per CSV column that
    [main] reads.  A pandas Series is the list of one column's cells, a
    boolean mask is a Series of [bool].

    A text cell holds the text of its CSV field; the texts listed in
    [na_values] are those that [pd.read_csv] reads as a missing value,
    and [groupby] leaves out the rows with such a key cell.  [Year] and
    [Job_Openings] are int64 columns: integers ([Z]) whose sums wrap
    around at 64 bits ([wrap64]).  [Salary_USD], [Growth_Rate] and
    [Gender_Diversity_Index] are held as rationals ([Q]) and [mean] is
    computed exactly; the rounding of float64 arithmetic is outside the
    model, and no statement below depends on the digits of an average.
    The float that pandas returns from [mean] is [fnum]: either [NaN] or
    a finite number. *)

From Stdlib Require Import List ZArith QArith Bool String Ascii Lia.
From Stdlib Require Import Sorted OrderedTypeEx.
Import ListNotations.

Local Open Scope string_scope.
Local Open Scope list_scope.
Local Open Scope Z_scope.

(** ** Keys of a groupby: the order pandas sorts the groups by *)

Class OrdKey (K : Type) := {
  kcmp : K -> K -> comparison;
  kcmp_eq : forall a b, kcmp a b = Eq <-> a = b;
  kcmp_antisym : forall a b, kcmp b a = CompOpp (kcmp a b);
  kcmp_lt_trans : forall a b c, kcmp a b = Lt -> kcmp b c = Lt -> kcmp a c = Lt
}.

Definition klt {K} `{OrdKey K} (a b : K) : Prop := kcmp a b = Lt.

Lemma Z_kcmp_eq (a b : Z) : (a ?= b) = Eq <-> a = b.
Proof. apply Z.compare_eq_iff. Qed.

Lemma Z_kcmp_antisym (a b : Z) : (b ?= a) = CompOpp (a ?= b).
Proof. apply Z.compare_antisym. Qed.

Lemma Z_kcmp_lt_trans (a b c : Z) :
  (a ?= b) = Lt -> (b ?= c) = Lt -> (a ?= c) = Lt.
Proof. rewrite !Z.compare_lt_iff. lia. Qed.

#[export] Instance OrdKey_Z : OrdKey Z := {|
  kcmp := Z.compare;
  kcmp_eq := Z_kcmp_eq;
  kcmp_antisym := Z_kcmp_antisym;
  kcmp_lt_trans := Z_kcmp_lt_trans |}.

(** Python compares [str] by code point; on UTF-8 bytes that is the
    lexicographic order of the bytes, which is [String.compare]. *)

Lemma string_kcmp_eq (a b : string) : String.compare a b = Eq <-> a = b.
Proof. apply String_as_OT.cmp_eq. Qed.

Lemma string_kcmp_antisym (a b : string) :
  String.compare b a = CompOpp (String.compare a b).
Proof. apply String.compare_antisym. Qed.

Lemma string_kcmp_lt_trans (a b c : string) :
  String.compare a b = Lt -> String.compare b c = Lt -> String.compare a c = Lt.
Proof.
  intros Hab Hbc.
  apply String_as_OT.cmp_lt.
  apply String_as_OT.lt_trans with b; apply String_as_OT.cmp_lt; assumption.
Qed.

#[export] Instance OrdKey_string : OrdKey string := {|
  kcmp := String.compare;
  kcmp_eq := string_kcmp_eq;
  kcmp_antisym := string_kcmp_antisym;
  kcmp_lt_trans := string_kcmp_lt_trans |}.

(** A two-column key is a tuple, compared on the first column, then on the
    second. *)

Definition pair_cmp {A B} `{OrdKey A} `{OrdKey B} (x y : A * B) : comparison :=
  match kcmp (fst x) (fst y) with
  | Eq => kcmp (snd x) (snd y)
  | c => c
  end.

Lemma pair_cmp_eq {A B} `{OrdKey A} `{OrdKey B} (x y : A * B) :
  pair_cmp x y = Eq <-> x = y.
Proof.
  destruct x as [a b], y as [a' b']; unfold pair_cmp; simpl.
  destruct (kcmp a a') eqn:E.
  - apply kcmp_eq in E; subst a'. rewrite kcmp_eq.
    split; [intros ->; reflexivity | intros [=]; assumption].
  - split; [discriminate | intros [= -> _]].
    assert (kcmp a' a' = Eq) by (apply kcmp_eq; reflexivity). congruence.
  - split; [discriminate | intros [= -> _]].
    assert (kcmp a' a' = Eq) by (apply kcmp_eq; reflexivity). congruence.
Qed.

Lemma pair_cmp_antisym {A B} `{OrdKey A} `{OrdKey B} (x y : A * B) :
  pair_cmp y x = CompOpp (pair_cmp x y).
Proof.
  destruct x as [a b], y as [a' b']; unfold pair_cmp; simpl.
  rewrite (kcmp_antisym a a').
  destruct (kcmp a a'); simpl; auto using kcmp_antisym.
Qed.

Lemma pair_cmp_lt_trans {A B} `{OrdKey A} `{OrdKey B} (x y z : A * B) :
  pair_cmp x y = Lt -> pair_cmp y z = Lt -> pair_cmp x z = Lt.
Proof.
  destruct x as [a1 b1], y as [a2 b2], z as [a3 b3]; unfold pair_cmp; simpl.
  destruct (kcmp a1 a2) eqn:E12; try discriminate;
    destruct (kcmp a2 a3) eqn:E23; try discriminate; intros H12 H23.
  - apply kcmp_eq in E12, E23; subst a2 a3.
    assert (kcmp a1 a1 = Eq) as -> by (apply kcmp_eq; reflexivity).
    eapply kcmp_lt_trans; eassumption.
  - apply kcmp_eq in E12; subst a2. rewrite E23. reflexivity.
  - apply kcmp_eq in E23; subst a3. rewrite E12. reflexivity.
  - rewrite (kcmp_lt_trans _ _ _ E12 E23). reflexivity.
Qed.

#[export] Instance OrdKey_pair {A B} `{OrdKey A} `{OrdKey B} : OrdKey (A * B) := {|
  kcmp := pair_cmp;
  kcmp_eq := pair_cmp_eq;
  kcmp_antisym := pair_cmp_antisym;
  kcmp_lt_trans := pair_cmp_lt_trans |}.

(** ** The data frame *)

(** One row of AIDataset.csv: the thirteen columns [main] reads. *)
Record Row := {
  Year : Z;
  Job_Title : string;
  Industry : string;
  Salary_USD : Q;
  Growth_Rate : Q;
  Job_Openings : Z;
  Gender_Diversity_Index : Q;
  Experience_Level : string;
  AI_Adoption_Level : string;
  Skill_Complexity : string;
  Location : string;
  Remote_Work : string;
  Company_Size : string
}.

Definition DataFrame := list Row.
Definition Series (A : Type) := list A.

(** [df['col']] *)
Definition getitem {A} (col : Row -> A) (df : DataFrame) : Series A :=
  map col df.

(** [Series.between(lo, hi)], both ends included. *)
Definition between (s : Series Z) (lo hi : Z) : Series bool :=
  map (fun x => (lo <=? x) && (x <=? hi)) s.

(** [Series.isin(values)] *)
Definition isin (s : Series string) (values : list string) : Series bool :=
  map (fun x => existsb (String.eqb x) values) s.

(** [a & b] on two boolean Series of one index. *)
Definition series_and (a b : Series bool) : Series bool :=
  map (fun p => fst p && snd p) (combine a b).

(** [df[mask]]: the rows whose mask cell is [True], in the frame's order. *)
Fixpoint getitem_mask (df : DataFrame) (m : Series bool) : DataFrame :=
  match df, m with
  | r :: df', b :: m' =>
      if b then r :: getitem_mask df' m' else getitem_mask df' m'
  | _, _ => []
  end.

(** The values of the three sidebar widgets. *)
Record FilterState := {
  year_range : Z * Z;
  job_cats : list string;
  industries : list string
}.

(** Lines 51-55. *)
Definition mask (df : DataFrame) (fs : FilterState) : Series bool :=
  series_and
    (series_and
       (between (getitem Year df) (fst (year_range fs)) (snd (year_range fs)))
       (isin (getitem Job_Title df) (job_cats fs)))
    (isin (getitem Industry df) (industries fs)).

(** Line 56. *)
Definition filtered_df (df : DataFrame) (fs : FilterState) : DataFrame :=
  getitem_mask df (mask df fs).

(** ** The filtered relation, as the specification words it *)

Definition satisfies (fs : FilterState) (r : Row) : Prop :=
  (fst (year_range fs) <= Year r <= snd (year_range fs))
  /\ In (Job_Title r) (job_cats fs)
  /\ In (Industry r) (industries fs).

Definition satisfiesb (fs : FilterState) (r : Row) : bool :=
  (fst (year_range fs) <=? Year r) && (Year r <=? snd (year_range fs))
  && existsb (String.eqb (Job_Title r)) (job_cats fs)
  && existsb (String.eqb (Industry r)) (industries fs).

Definition FilteredRelation (ds : DataFrame) (fs : FilterState) : DataFrame :=
  List.filter (satisfiesb fs) ds.

Lemma existsb_eqb_In (x : string) (l : list string) :
  existsb (String.eqb x) l = true <-> In x l.
Proof.
  rewrite existsb_exists. split.
  - intros [y [Hy E]]. apply String.eqb_eq in E. subst y. exact Hy.
  - intros Hx. exists x. split; [exact Hx | apply String.eqb_refl].
Qed.

Lemma satisfiesb_spec (fs : FilterState) (r : Row) :
  satisfiesb fs r = true <-> satisfies fs r.
Proof.
  unfold satisfiesb, satisfies.
  rewrite !andb_true_iff, !existsb_eqb_In, !Z.leb_le. tauto.
Qed.

Lemma filtered_df_filter (ds : DataFrame) (fs : FilterState) :
  filtered_df ds fs = FilteredRelation ds fs.
Proof.
  unfold filtered_df, FilteredRelation, mask, series_and, between, isin, getitem.
  induction ds as [|r ds IH]; simpl; [reflexivity|].
  unfold satisfiesb at 1.
  destruct (_ && _ && _ && _); rewrite IH; reflexivity.
Qed.

(** ** Aggregations *)

(** The result of [Series.mean()]: pandas answers [nan] on an empty Series. *)
Inductive fnum : Type :=
| NaN : fnum
| Fin : Q -> fnum.

Fixpoint Qsum (s : Series Q) : Q :=
  match s with
  | [] => 0%Q
  | x :: s' => (x + Qsum s')%Q
  end.

(** The value an int64 holds after an addition whose exact result is [z]. *)
Definition wrap64 (z : Z) : Z :=
  (z + 2 ^ 63) mod 2 ^ 64 - 2 ^ 63.

(** [Series.sum()] of an int64 column: [0] on an empty Series, and every
    addition wraps around at 64 bits. *)
Fixpoint Zsum (s : Series Z) : Z :=
  match s with
  | [] => 0
  | x :: s' => wrap64 (x + Zsum s')
  end.

(** [Series.mean()] *)
Definition mean (s : Series Q) : fnum :=
  match s with
  | [] => NaN
  | _ :: _ => Fin (Qsum s / inject_Z (Z.of_nat (List.length s)))%Q
  end.

Section GroupBy.
Context {K : Type} `{OrdKey K}.

(** Put row [r] in front of the group of key [k]; a new group is opened at
    the key's place in the order of the keys. *)
Fixpoint add_row (k : K) (r : Row) (g : list (K * DataFrame))
  : list (K * DataFrame) :=
  match g with
  | [] => [(k, [r])]
  | (k', rows) :: g' =>
      match kcmp k k' with
      | Lt => (k, [r]) :: g
      | Eq => (k', r :: rows) :: g'
      | Gt => (k', rows) :: add_row k r g'
      end
  end.

(** The groups of a frame: one group per key value that occurs, groups
    in increasing key order (the default [sort=True]), every group
    holding its rows in the frame's order. *)
Fixpoint group_rows (key : Row -> K) (df : DataFrame) : list (K * DataFrame) :=
  match df with
  | [] => []
  | r :: df' => add_row (key r) r (group_rows key df')
  end.

(** [groupby(...)[col].f().reset_index()] and [groupby(...).size()]: one
    output row per group. *)
Definition agg {V} (f : DataFrame -> V) (g : list (K * DataFrame))
  : list (K * V) :=
  map (fun kg => (fst kg, f (snd kg))) g.

Definition keqb (a b : K) : bool :=
  match kcmp a b with Eq => true | _ => false end.

(** The rows of [df] whose key is [k]. *)
Definition rows_with (key : Row -> K) (k : K) (df : DataFrame) : DataFrame :=
  List.filter (fun r => keqb (key r) k) df.

Lemma keqb_eq (a b : K) : keqb a b = true <-> a = b.
Proof.
  unfold keqb. rewrite <- kcmp_eq. destruct (kcmp a b); intuition congruence.
Qed.

Lemma kcmp_refl (a : K) : kcmp a a = Eq.
Proof. apply kcmp_eq. reflexivity. Qed.

Lemma kcmp_gt_lt (a b : K) : kcmp a b = Gt -> kcmp b a = Lt.
Proof. intros E. rewrite kcmp_antisym, E. reflexivity. Qed.

Lemma klt_irrefl (a : K) : ~ klt a a.
Proof. unfold klt. rewrite kcmp_refl. discriminate. Qed.

Lemma klt_trans (a b c : K) : klt a b -> klt b c -> klt a c.
Proof. apply kcmp_lt_trans. Qed.

Lemma add_row_keys (k : K) (r : Row) (g : list (K * DataFrame)) (k' : K) :
  In k' (map fst (add_row k r g)) <-> k' = k \/ In k' (map fst g).
Proof.
  induction g as [|[k0 rows] g IH]; simpl.
  - intuition.
  - destruct (kcmp k k0) eqn:E; simpl.
    + apply kcmp_eq in E. subst k0. intuition.
    + intuition.
    + rewrite IH. intuition.
Qed.

Lemma add_row_sorted (k : K) (r : Row) (g : list (K * DataFrame)) :
  StronglySorted klt (map fst g) ->
  StronglySorted klt (map fst (add_row k r g)).
Proof.
  induction g as [|[k0 rows] g IH]; simpl; intros Hs.
  - constructor; constructor.
  - apply StronglySorted_inv in Hs. destruct Hs as [Hs Hall].
    destruct (kcmp k k0) eqn:E; simpl.
    + constructor; assumption.
    + constructor.
      * constructor; assumption.
      * constructor; [exact E|].
        eapply Forall_impl; [|exact Hall].
        intros a Ha. eapply klt_trans; eassumption.
    + constructor; [apply IH; exact Hs|].
      apply Forall_forall. intros a Ha.
      apply add_row_keys in Ha. destruct Ha as [->|Ha].
      * apply kcmp_gt_lt. exact E.
      * rewrite Forall_forall in Hall. apply Hall. exact Ha.
Qed.

Lemma group_rows_sorted (key : Row -> K) (df : DataFrame) :
  StronglySorted klt (map fst (group_rows key df)).
Proof.
  induction df as [|r df IH]; simpl.
  - constructor.
  - apply add_row_sorted. exact IH.
Qed.

Lemma group_rows_keys (key : Row -> K) (df : DataFrame) (k : K) :
  In k (map fst (group_rows key df)) <-> In k (map key df).
Proof.
  induction df as [|r df IH]; simpl.
  - reflexivity.
  - rewrite add_row_keys, IH. intuition.
Qed.

Lemma add_row_In (k : K) (r : Row) (g : list (K * DataFrame))
      (k' : K) (rows : DataFrame) :
  StronglySorted klt (map fst g) ->
  In (k', rows) (add_row k r g) <->
  (k' = k /\ ((~ In k (map fst g) /\ rows = [r])
              \/ exists rows0, In (k, rows0) g /\ rows = r :: rows0))
  \/ (k' <> k /\ In (k', rows) g).
Proof.
  induction g as [|[k0 rows0] g IH]; simpl; intros Hs.
  - split.
    + intros [[= <- <-]|[]]. left. split; [reflexivity|]. left. tauto.
    + intros [[-> [[_ ->]|[x [[] _]]]]|[_ []]]. left. reflexivity.
  - apply StronglySorted_inv in Hs. destruct Hs as [Hs Hall].
    rewrite Forall_forall in Hall.
    assert (Hk0 : ~ In k0 (map fst g)).
    { intros Hin. apply (klt_irrefl k0). apply Hall. exact Hin. }
    destruct (kcmp k k0) eqn:E; simpl.
    + apply kcmp_eq in E. subst k0. split.
      * intros [[= <- <-]|Hin].
        -- left. split; [reflexivity|]. right. exists rows0. auto.
        -- right. split; [|right; exact Hin].
           intros ->. apply Hk0. apply (in_map fst) in Hin. exact Hin.
      * intros [[-> [[Hn _]|[x [[[= <-]|Hin] ->]]]]|[Hne [[= <- _]|Hin]]].
        -- exfalso. apply Hn. left. reflexivity.
        -- left. reflexivity.
        -- exfalso. apply Hk0. apply (in_map fst) in Hin. exact Hin.
        -- exfalso. apply Hne. reflexivity.
        -- right. exact Hin.
    + assert (Hnk : ~ In k (map fst g)).
      { intros Hin. apply (klt_irrefl k).
        eapply klt_trans; [exact E|]. apply Hall. exact Hin. }
      assert (Hne0 : k0 <> k).
      { intros ->. rewrite kcmp_refl in E. discriminate. }
      split.
      * intros [[= <- <-]|[[= <- <-]|Hin]].
        -- left. split; [reflexivity|]. left. split; [|reflexivity].
           intros [Heq|Hin]; [apply Hne0; exact Heq | apply Hnk; exact Hin].
        -- right. split; [exact Hne0 | left; reflexivity].
        -- right. split; [|right; exact Hin].
           intros ->. apply Hnk. apply (in_map fst) in Hin. exact Hin.
      * intros [[-> [[_ ->]|[x [[[= Heq _]|Hin] _]]]]|[Hne Hin]].
        -- left. reflexivity.
        -- exfalso. apply Hne0. exact Heq.
        -- exfalso. apply Hnk. apply (in_map fst) in Hin. exact Hin.
        -- right. exact Hin.
    + assert (Hne0 : k0 <> k).
      { intros ->. rewrite kcmp_refl in E. discriminate. }
      rewrite (IH Hs). split.
      * intros [[= <- <-]|[[-> [[Hn ->]|[x [Hin ->]]]]|[Hne Hin]]].
        -- right. split; [exact Hne0 | left; reflexivity].
        -- left. split; [reflexivity|]. left. split; [|reflexivity].
           intros [Heq|Hin]; [apply Hne0; exact Heq | apply Hn; exact Hin].
        -- left. split; [reflexivity|]. right. exists x. auto.
        -- right. split; [exact Hne|right; exact Hin].
      * intros [[-> [[Hn ->]|[x [[[= Heq _]|Hin] ->]]]]|[Hne [[= <- <-]|Hin]]].
        -- right. left. split; [reflexivity|]. left. split; [|reflexivity].
           intros Hin. apply Hn. right. exact Hin.
        -- exfalso. apply Hne0. exact Heq.
        -- right. left. split; [reflexivity|]. right. exists x. auto.
        -- left. reflexivity.
        -- right. right. split; assumption.
Qed.

Lemma rows_with_nil_iff (key : Row -> K) (k : K) (df : DataFrame) :
  rows_with key k df = [] <-> ~ In k (map key df).
Proof.
  unfold rows_with. induction df as [|r df IH]; simpl.
  - tauto.
  - destruct (keqb (key r) k) eqn:E.
    + apply keqb_eq in E. split; [discriminate|]. intros Hn. exfalso. auto.
    + rewrite IH. split.
      * intros Hn [Heq|Hin]; [|auto].
        rewrite <- keqb_eq in Heq. congruence.
      * intros Hn Hin. apply Hn. right. exact Hin.
Qed.

(** The groups are exactly the non-empty key classes. *)
Lemma group_rows_In (key : Row -> K) (df : DataFrame) (k : K) (rows : DataFrame) :
  In (k, rows) (group_rows key df) <->
  rows = rows_with key k df /\ rows <> [].
Proof.
  revert k rows. induction df as [|r df IH]; intros k rows; simpl.
  - unfold rows_with; simpl. split; [tauto|]. intros [-> Hn]. apply Hn. reflexivity.
  - rewrite add_row_In by apply group_rows_sorted.
    unfold rows_with in *; simpl.
    destruct (keqb (key r) k) eqn:E.
    + apply keqb_eq in E. subst k. split.
      * intros [[_ [[Hn ->]|[rows0 [Hin ->]]]]|[Hne _]].
        -- split; [|discriminate]. f_equal. symmetry.
           apply rows_with_nil_iff. rewrite <- group_rows_keys. exact Hn.
        -- split; [|discriminate]. f_equal. apply IH in Hin. tauto.
        -- exfalso. apply Hne. reflexivity.
      * intros [-> _]. left. split; [reflexivity|].
        destruct (List.filter (fun r0 => keqb (key r0) (key r)) df) as [|r1 l] eqn:Ef.
        -- left. split; [|reflexivity].
           rewrite group_rows_keys. apply rows_with_nil_iff. exact Ef.
        -- right. exists (r1 :: l). split; [|reflexivity].
           apply IH. split; [symmetry; exact Ef | discriminate].
    + assert (Hne : k <> key r).
      { intros ->. rewrite (proj2 (keqb_eq _ _) eq_refl) in E. discriminate. }
      rewrite IH. split.
      * intros [[Heq _]|[_ Hin]]; [contradiction | exact Hin].
      * intros Hin. right. split; assumption.
Qed.

Lemma agg_keys {V} (f : DataFrame -> V) (g : list (K * DataFrame)) :
  map fst (agg f g) = map fst g.
Proof. unfold agg. rewrite map_map. reflexivity. Qed.

Lemma agg_In {V} (f : DataFrame -> V) (g : list (K * DataFrame)) (k : K) (v : V) :
  In (k, v) (agg f g) <-> exists rows, In (k, rows) g /\ v = f rows.
Proof.
  unfold agg. rewrite in_map_iff. split.
  - intros [[k' rows] [[= <- <-] Hin]]. exists rows. auto.
  - intros [rows [Hin ->]]. exists (k, rows). auto.
Qed.
End GroupBy.

(** ** Missing cells *)

(** The cell texts that [pd.read_csv] reads as a missing value (its
    default [na_values]). *)
Definition na_values : list string :=
  [""; "#N/A"; "#N/A N/A"; "#NA"; "-1.#IND"; "-1.#QNAN"; "-NaN"; "-nan";
   "1.#IND"; "1.#QNAN"; "<NA>"; "N/A"; "NA"; "NULL"; "NaN"; "None";
   "n/a"; "nan"; "null"].

(** [isna k]: some cell of the key [k] is missing. *)
Class NaKey (K : Type) := isna : K -> bool.

#[export] Instance NaKey_Z : NaKey Z := fun _ => false.

#[export] Instance NaKey_string : NaKey string :=
  fun s => existsb (String.eqb s) na_values.

#[export] Instance NaKey_pair {A B} `{NaKey A} `{NaKey B} : NaKey (A * B) :=
  fun k => isna (fst k) || isna (snd k).

Section GroupByDropna.
Context {K : Type} `{OrdKey K} `{NaKey K}.

(** The rows whose key cells are all present. *)
Definition dropna (key : Row -> K) (df : DataFrame) : DataFrame :=
  List.filter (fun r => negb (isna (key r))) df.

(** [df.groupby(key)] with the defaults [sort=True] and [dropna=True]:
    the rows with a missing key cell are left out, the others are
    grouped. *)
Definition groupby (key : Row -> K) (df : DataFrame) : list (K * DataFrame) :=
  group_rows key (dropna key df).

Lemma dropna_In (key : Row -> K) (df : DataFrame) (r : Row) :
  In r (dropna key df) <-> In r df /\ isna (key r) = false.
Proof.
  unfold dropna. rewrite filter_In, negb_true_iff. reflexivity.
Qed.

Lemma rows_with_dropna (key : Row -> K) (k : K) (df : DataFrame) :
  isna k = false -> rows_with key k (dropna key df) = rows_with key k df.
Proof.
  intros Hk. unfold rows_with, dropna.
  induction df as [|r df IH]; simpl; [reflexivity|].
  destruct (isna (key r)) eqn:Ena; simpl.
  - destruct (keqb (key r) k) eqn:Ek; [|exact IH].
    apply keqb_eq in Ek. congruence.
  - rewrite IH. reflexivity.
Qed.

Lemma groupby_sorted (key : Row -> K) (df : DataFrame) :
  StronglySorted klt (map fst (groupby key df)).
Proof. apply group_rows_sorted. Qed.

Lemma groupby_keys (key : Row -> K) (df : DataFrame) (k : K) :
  In k (map fst (groupby key df)) <-> isna k = false /\ In k (map key df).
Proof.
  unfold groupby. rewrite group_rows_keys, !in_map_iff. split.
  - intros [r [E Hr]]. apply dropna_In in Hr. destruct Hr as [Hr Hna].
    split; [congruence | exists r; auto].
  - intros [Hna [r [E Hr]]]. exists r. split; [exact E|].
    apply dropna_In. split; [exact Hr | congruence].
Qed.

(** The groups of [groupby]: one for every key without a missing cell
    that some row has, holding the rows with that key. *)
Lemma groupby_In (key : Row -> K) (df : DataFrame) (k : K) (rows : DataFrame) :
  In (k, rows) (groupby key df) <->
  isna k = false /\ rows = rows_with key k df /\ rows <> [].
Proof.
  unfold groupby. rewrite group_rows_In. split.
  - intros [-> Hne].
    assert (Hna : isna k = false).
    { destruct (rows_with key k (dropna key df)) as [|r l] eqn:E; [congruence|].
      assert (Hr : In r (rows_with key k (dropna key df)))
        by (rewrite E; left; reflexivity).
      unfold rows_with in Hr. apply filter_In in Hr. destruct Hr as [Hr Hk].
      apply keqb_eq in Hk. apply dropna_In in Hr. destruct Hr as [_ Hr].
      congruence. }
    rewrite rows_with_dropna in * by exact Hna. auto.
  - intros [Hna [-> Hne]]. rewrite rows_with_dropna by exact Hna. auto.
Qed.
End GroupByDropna.

(** ** The page: KPIs and charts (lines 58-149) *)

(** Lines 62, 66, 70, 74: the four headline figures. *)
Definition avg_salary (filtered_df : DataFrame) : fnum :=
  mean (getitem Salary_USD filtered_df).

Definition avg_growth (filtered_df : DataFrame) : fnum :=
  mean (getitem Growth_Rate filtered_df).

Definition total_openings (filtered_df : DataFrame) : Z :=
  Zsum (getitem Job_Openings filtered_df).

Definition avg_diversity (filtered_df : DataFrame) : fnum :=
  mean (getitem Gender_Diversity_Index filtered_df).

(** [.size()] of a group. *)
Definition size (g : DataFrame) : nat := List.length g.

(** Line 83. *)
Definition salary_trends (filtered_df : DataFrame) : list ((Z * string) * fnum) :=
  agg (fun g => mean (getitem Salary_USD g))
      (groupby (fun r => (Year r, Job_Title r)) filtered_df).

(** Line 90. *)
Definition salary_exp (filtered_df : DataFrame) : list ((string * string) * fnum) :=
  agg (fun g => mean (getitem Salary_USD g))
      (groupby (fun r => (Experience_Level r, Job_Title r)) filtered_df).

(** Line 101. *)
Definition ai_adoption (filtered_df : DataFrame) : list ((string * string) * nat) :=
  agg size (groupby (fun r => (Industry r, AI_Adoption_Level r)) filtered_df).

(** Line 108. *)
Definition skill_complex (filtered_df : DataFrame) : list ((string * string) * nat) :=
  agg size (groupby (fun r => (Job_Title r, Skill_Complexity r)) filtered_df).

(** Line 119. *)
Definition location_jobs (filtered_df : DataFrame) : list ((string * string) * Z) :=
  agg (fun g => Zsum (getitem Job_Openings g))
      (groupby (fun r => (Location r, Job_Title r)) filtered_df).

(** Line 127. *)
Definition remote_dist (filtered_df : DataFrame) : list ((string * string) * nat) :=
  agg size (groupby (fun r => (Job_Title r, Remote_Work r)) filtered_df).

(** Line 139. *)
Definition growth_industry (filtered_df : DataFrame) : list (string * fnum) :=
  agg (fun g => mean (getitem Growth_Rate g)) (groupby Industry filtered_df).

(** Line 146. *)
Definition company_dist (filtered_df : DataFrame) : list ((string * string) * nat) :=
  agg size (groupby (fun r => (Company_Size r, Job_Title r)) filtered_df).

(** What one run of [main] leaves behind: the frame [df] as it is when
    [main] returns, the filtered frame (shown under "Show Raw Data"), the
    four metrics and the eight tables handed to the charts. *)
Record Page := {
  page_df : DataFrame;
  page_filtered_df : DataFrame;
  page_avg_salary : fnum;
  page_avg_growth : fnum;
  page_total_openings : Z;
  page_avg_diversity : fnum;
  page_salary_trends : list ((Z * string) * fnum);
  page_salary_exp : list ((string * string) * fnum);
  page_ai_adoption : list ((string * string) * nat);
  page_skill_complex : list ((string * string) * nat);
  page_location_jobs : list ((string * string) * Z);
  page_remote_dist : list ((string * string) * nat);
  page_growth_industry : list (string * fnum);
  page_company_dist : list ((string * string) * nat)
}.

(** Lines 50-154, from the widget values on. *)
Definition render (df : DataFrame) (fs : FilterState) : Page :=
  let filtered_df := filtered_df df fs in
  {| page_df := df;
     page_filtered_df := filtered_df;
     page_avg_salary := avg_salary filtered_df;
     page_avg_growth := avg_growth filtered_df;
     page_total_openings := total_openings filtered_df;
     page_avg_diversity := avg_diversity filtered_df;
     page_salary_trends := salary_trends filtered_df;
     page_salary_exp := salary_exp filtered_df;
     page_ai_adoption := ai_adoption filtered_df;
     page_skill_complex := skill_complex filtered_df;
     page_location_jobs := location_jobs filtered_df;
     page_remote_dist := remote_dist filtered_df;
     page_growth_industry := growth_industry filtered_df;
     page_company_dist := company_dist filtered_df |}.

(** ** The sidebar (lines 25-48) *)

Inductive exn : Type :=
| FileNotFoundError : exn
| EmptyDataError : exn
| ValueError : exn
| StreamlitAPIException : exn.

(** [Series.min()] and [Series.max()]; [None] is the [nan] of an empty
    Series, on which [int(...)] raises [ValueError]. *)
Fixpoint series_min (s : Series Z) : option Z :=
  match s with
  | [] => None
  | x :: s' =>
      match series_min s' with
      | None => Some x
      | Some m => Some (Z.min x m)
      end
  end.

Fixpoint series_max (s : Series Z) : option Z :=
  match s with
  | [] => None
  | x :: s' =>
      match series_max s' with
      | None => Some x
      | Some m => Some (Z.max x m)
      end
  end.

(** [Series.unique()]: the distinct values, in order of first appearance. *)
Fixpoint unique (s : Series string) : list string :=
  match s with
  | [] => []
  | x :: s' => x :: List.filter (fun y => negb (String.eqb y x)) (unique s')
  end.

(** The widgets are the user's side of the page: given a label, the
    options and the default, each returns the current selection. *)
Record Widgets := {
  slider : string -> Z -> Z -> Z * Z -> Z * Z;
  multiselect : string -> list string -> list string -> list string
}.

(** A page nobody has touched yet: every widget returns its default. *)
Definition untouched : Widgets :=
  {| slider := fun _ _ _ value => value;
     multiselect := fun _ _ default => default |}.

(** [st.sidebar.slider] checks its bounds before it asks the widget:
    [min_value] has to lie below [max_value]. *)
Definition sidebar (w : Widgets) (df : DataFrame) : exn + FilterState :=
  match series_min (getitem Year df), series_max (getitem Year df) with
  | Some lo, Some hi =>
      if hi <=? lo then inl StreamlitAPIException else
      inr {| year_range := slider w "Select Year Range" lo hi (lo, hi);
             job_cats :=
               multiselect w "Select Job Categories"
                           (unique (getitem Job_Title df))
                           (unique (getitem Job_Title df));
             industries :=
               multiselect w "Select Industries"
                           (unique (getitem Industry df))
                           (unique (getitem Industry df)) |}
  | _, _ => inl ValueError
  end.

(** Lines 25-154: [main], from the loaded frame on. *)
Definition main_body (w : Widgets) (df : DataFrame) : exn + Page :=
  match sidebar w df with
  | inl e => inl e
  | inr fs => inr (render df fs)
  end.

(** ** The loader (lines 12-15) *)

Section Loader.
(** What [pd.read_csv] builds from a readable, well-formed file. *)
Variable Frame : Type.

(** The file AIDataset.csv as [pd.read_csv] finds it. *)
Inductive Source : Type :=
| NoFile : Source
| EmptyFile : Source
| Csv : Frame -> Source.

Definition read_csv (src : Source) : exn + Frame :=
  match src with
  | NoFile => inl FileNotFoundError
  | EmptyFile => inl EmptyDataError
  | Csv f => inr f
  end.

(** The process: the file on disk, how many times it has been read, and
    the entry that [@st.cache_data] keeps for [load_data]. *)
Record Process := {
  source : Source;
  reads : nat;
  cache : option Frame
}.

(** [@st.cache_data def load_data()]: a cached value is returned as it
    is; otherwise the body runs, and its value is stored when it returns
    (an exception stores nothing). *)
Definition load_data (p : Process) : (exn + Frame) * Process :=
  match cache p with
  | Some df => (inr df, p)
  | None =>
      match read_csv (source p) with
      | inl e =>
          (inl e, {| source := source p; reads := S (reads p); cache := None |})
      | inr df =>
          (inr df, {| source := source p; reads := S (reads p); cache := Some df |})
      end
  end.

(** The file is replaced on disk. *)
Definition overwrite (src : Source) (p : Process) : Process :=
  {| source := src; reads := reads p; cache := cache p |}.

(** A fresh process. *)
Definition start (src : Source) : Process :=
  {| source := src; reads := 0%nat; cache := None |}.
End Loader.

Arguments NoFile {Frame}.
Arguments EmptyFile {Frame}.
Arguments Csv {Frame} _.
Arguments read_csv {Frame} _.
Arguments load_data {Frame} _.
Arguments overwrite {Frame} _ _.
Arguments start {Frame} _.
Arguments source {Frame} _.
Arguments reads {Frame} _.
Arguments cache {Frame} _.

(** Lines 17-154: one run of the script in process [p]. *)
Definition main (w : Widgets) (p : Process DataFrame)
  : (exn + Page) * Process DataFrame :=
  match load_data p with
  | (inl e, p') => (inl e, p')
  | (inr df, p') => (main_body w df, p')
  end.

(** A frame as [read_csv] returns it for any header: the column names and
    the rows of cells. *)
Record RawFrame := {
  columns : list string;
  cells : list (list string)
}.

(** The columns [main] asks the frame for, in the order of its first
    access to each (lines 31, 39, 46, 62, 66, 70, 74, 90, 101, 108, 119,
    127, 146). *)
Definition columns_read : list string :=
  ["Year"; "Job_Title"; "Industry"; "Salary_USD"; "Growth_Rate";
   "Job_Openings"; "Gender_Diversity_Index"; "Experience_Level";
   "AI_Adoption_Level"; "Skill_Complexity"; "Location"; "Remote_Work";
   "Company_Size"].

(** ** Notions the statements below are written with *)

(** [Subseq l1 l2]: [l1] is [l2] with some rows left out, order kept. *)
Inductive Subseq {A : Type} : list A -> list A -> Prop :=
| Subseq_nil : Subseq [] []
| Subseq_skip : forall x l1 l2, Subseq l1 l2 -> Subseq l1 (x :: l2)
| Subseq_keep : forall x l1 l2, Subseq l1 l2 -> Subseq (x :: l1) (x :: l2).

(** The keys of a table come in increasing order. *)
Definition keys_increasing {K V} `{OrdKey K} (t : list (K * V)) : Prop :=
  StronglySorted klt (map fst t).

(** [k] is the key of some row of [F], and none of its cells is missing. *)
Definition observed {K} `{NaKey K} (key : Row -> K) (F : DataFrame) (k : K) : Prop :=
  isna k = false /\ exists r, In r F /\ key r = k.

(** No row of [F] has a missing cell in its key. *)
Definition no_missing {K} `{NaKey K} (key : Row -> K) (F : DataFrame) : Prop :=
  forall r, In r F -> isna (key r) = false.

(** [t] is the table of [f] grouped by [key] over the rows [F]: entries in
    increasing key order, one entry per key without a missing cell that
    occurs in [F], holding [f] of the rows of [F] with that key. *)
Definition is_table {K V} `{OrdKey K} `{NaKey K}
    (key : Row -> K) (f : DataFrame -> V) (F : DataFrame) (t : list (K * V)) : Prop :=
  keys_increasing t
  /\ forall k v,
       In (k, v) t <-> observed key F k /\ v = f (rows_with key k F).


(** The range of an int64, and a column all of whose cells lie in it. *)
Definition in_int64 (z : Z) : Prop := - 2 ^ 63 <= z < 2 ^ 63.

Definition int64_column (col : Row -> Z) (ds : DataFrame) : Prop :=
  forall r, In r ds -> in_int64 (col r).

(** The sum of a list of integers, in the integers. *)
Definition exact_sum (s : list Z) : Z := fold_right Z.add 0 s.

(** Two widget states that select the same years and the same sets. *)
Definition same_selection (fs1 fs2 : FilterState) : Prop :=
  year_range fs1 = year_range fs2
  /\ (forall x, In x (job_cats fs1) <-> In x (job_cats fs2))
  /\ (forall x, In x (industries fs1) <-> In x (industries fs2)).

(** [fs2] selects at least what [fs1] selects, on every dimension. *)
Definition widens (fs1 fs2 : FilterState) : Prop :=
  fst (year_range fs2) <= fst (year_range fs1)
  /\ snd (year_range fs1) <= snd (year_range fs2)
  /\ incl (job_cats fs1) (job_cats fs2)
  /\ incl (industries fs1) (industries fs2).

Definition add_job (s : string) (fs : FilterState) : FilterState :=
  {| year_range := year_range fs;
     job_cats := s :: job_cats fs;
     industries := industries fs |}.

Definition add_industry (s : string) (fs : FilterState) : FilterState :=
  {| year_range := year_range fs;
     job_cats := job_cats fs;
     industries := s :: industries fs |}.

(** [n] calls of [load_data] in a row: the results and the final process. *)
Fixpoint load_many {Frame} (n : nat) (p : Process Frame)
  : list (exn + Frame) * Process Frame :=
  match n with
  | O => ([], p)
  | S n' =>
      let '(r, p') := load_data p in
      let '(rs, p'') := load_many n' p' in
      (r :: rs, p'')
  end.

(** A frame that lacks one of the columns [main] reads. *)
Definition lacks_column (df : RawFrame) : Prop :=
  exists c, In c columns_read /\ ~ In c (columns df).

(** ** The scenario of the specification's section 8 *)

Definition scenario_row1 : Row :=
  {| Year := 2020; Job_Title := "A"; Industry := "X"; Salary_USD := 100%Q;
     Growth_Rate := 5%Q; Job_Openings := 5; Gender_Diversity_Index := (1 # 2)%Q;
     Experience_Level := "Senior"; AI_Adoption_Level := "High";
     Skill_Complexity := "Advanced"; Location := "Berlin";
     Remote_Work := "Yes"; Company_Size := "Large" |}.

Definition scenario_row2 : Row :=
  {| Year := 2021; Job_Title := "B"; Industry := "Y"; Salary_USD := 200%Q;
     Growth_Rate := 7%Q; Job_Openings := 3; Gender_Diversity_Index := (1 # 4)%Q;
     Experience_Level := "Junior"; AI_Adoption_Level := "Low";
     Skill_Complexity := "Basic"; Location := "Austin";
     Remote_Work := "No"; Company_Size := "Small" |}.

Definition scenario_ds : DataFrame := [scenario_row1; scenario_row2].

Definition scenario_fs : FilterState :=
  {| year_range := (2020, 2020); job_cats := ["A"]; industries := ["X"] |}.

Definition scenario_all : FilterState :=
  {| year_range := (2020, 2021); job_cats := ["A"; "B"]; industries := ["X"; "Y"] |}.

Definition scenario_no_jobs : FilterState :=
  {| year_range := (2020, 2021); job_cats := []; industries := ["X"; "Y"] |}.

(** A file whose header has no Year column. *)
Definition headless : RawFrame :=
  {| columns := ["Job_Title"; "Industry"]; cells := [["A"; "X"]] |}.

(** ** Auxiliary facts *)

Lemma filtered_df_In (ds : DataFrame) (fs : FilterState) (r : Row) :
  In r (filtered_df ds fs) <-> In r ds /\ satisfies fs r.
Proof.
  rewrite filtered_df_filter. unfold FilteredRelation.
  rewrite filter_In, satisfiesb_spec. reflexivity.
Qed.

Lemma filter_Subseq {A} (f g : A -> bool) (l : list A) :
  (forall x, In x l -> f x = true -> g x = true) ->
  Subseq (List.filter f l) (List.filter g l).
Proof.
  induction l as [|x l IH]; simpl; intros Himp.
  - constructor.
  - assert (IH' : Subseq (List.filter f l) (List.filter g l)).
    { apply IH. intros y Hy. apply Himp. right. exact Hy. }
    destruct (f x) eqn:Ef.
    + rewrite (Himp x (or_introl eq_refl) Ef). apply Subseq_keep. exact IH'.
    + destruct (g x); [apply Subseq_skip|]; exact IH'.
Qed.

Lemma Subseq_length {A} (l1 l2 : list A) :
  Subseq l1 l2 -> (List.length l1 <= List.length l2)%nat.
Proof. induction 1; simpl; lia. Qed.

Lemma Subseq_In {A} (l1 l2 : list A) :
  Subseq l1 l2 -> forall x, In x l1 -> In x l2.
Proof.
  induction 1; simpl; intros y Hy; auto.
  destruct Hy as [->|Hy]; auto.
Qed.

Lemma filter_ext_in_list {A} (f g : A -> bool) (l : list A) :
  (forall x, In x l -> f x = g x) -> List.filter f l = List.filter g l.
Proof.
  induction l as [|x l IH]; simpl; intros Heq; [reflexivity|].
  rewrite (Heq x (or_introl eq_refl)), IH; [reflexivity|].
  intros y Hy. apply Heq. right. exact Hy.
Qed.

Lemma bool_eq_iff (a b : bool) : (a = true <-> b = true) -> a = b.
Proof. destruct a, b; intuition congruence. Qed.

(** The filter sees the selected lists only through membership of the
    values that occur in the frame. *)
Lemma filtered_df_ext (ds : DataFrame) (fs1 fs2 : FilterState) :
  year_range fs1 = year_range fs2 ->
  (forall r, In r ds -> In (Job_Title r) (job_cats fs1) <-> In (Job_Title r) (job_cats fs2)) ->
  (forall r, In r ds -> In (Industry r) (industries fs1) <-> In (Industry r) (industries fs2)) ->
  filtered_df ds fs1 = filtered_df ds fs2.
Proof.
  intros Hy Hj Hi. rewrite !filtered_df_filter. unfold FilteredRelation.
  apply filter_ext_in_list. intros r Hr. apply bool_eq_iff.
  rewrite !satisfiesb_spec. unfold satisfies. rewrite Hy.
  specialize (Hj r Hr). specialize (Hi r Hr). tauto.
Qed.

Lemma render_ext (ds : DataFrame) (fs1 fs2 : FilterState) :
  filtered_df ds fs1 = filtered_df ds fs2 -> render ds fs1 = render ds fs2.
Proof. unfold render. intros ->. reflexivity. Qed.

Section SortedKeys.
Context {K : Type} `{OrdKey K} `{NaKey K}.

(** An increasing list of keys is determined by the set of its keys. *)
Lemma sorted_keys_unique (l1 l2 : list K) :
  StronglySorted klt l1 -> StronglySorted klt l2 ->
  (forall k, In k l1 <-> In k l2) -> l1 = l2.
Proof.
  revert l2. induction l1 as [|a l1 IH]; intros [|b l2] H1 H2 Hmem.
  - reflexivity.
  - exfalso. apply (Hmem b). left. reflexivity.
  - exfalso. apply (Hmem a). left. reflexivity.
  - apply StronglySorted_inv in H1, H2.
    destruct H1 as [H1 A1], H2 as [H2 A2].
    rewrite Forall_forall in A1, A2.
    assert (a = b) as <-.
    { destruct (proj1 (Hmem a) (or_introl eq_refl)) as [E|Ha]; [symmetry; exact E|].
      destruct (proj2 (Hmem b) (or_introl eq_refl)) as [E|Hb]; [exact E|].
      exfalso. apply (klt_irrefl a).
      eapply klt_trans; [apply A1; exact Hb | apply A2; exact Ha]. }
    f_equal. apply IH; trivial.
    intros k. split; intros Hk.
    + destruct (proj1 (Hmem k) (or_intror Hk)) as [<-|Hk']; [|exact Hk'].
      exfalso. apply (klt_irrefl a). apply A1. exact Hk.
    + destruct (proj2 (Hmem k) (or_intror Hk)) as [<-|Hk']; [|exact Hk'].
      exfalso. apply (klt_irrefl a). apply A2. exact Hk.
Qed.

Lemma groupby_keys_fixed (key : Row -> K) (d1 d2 : DataFrame) :
  (forall k, In k (map key d1) <-> In k (map key d2)) ->
  map fst (groupby key d1) = map fst (groupby key d2).
Proof.
  intros Hmem. apply sorted_keys_unique; try apply groupby_sorted.
  intros k. rewrite !groupby_keys, Hmem. reflexivity.
Qed.

(** Every group holds at least one row of the frame, with the group's
    key, and no cell of that key is missing. *)
Lemma groupby_group_rows (key : Row -> K) (F : DataFrame) (k : K) (rows : DataFrame) :
  In (k, rows) (groupby key F) ->
  (1 <= List.length rows)%nat /\ observed key F k.
Proof.
  intros Hin. apply groupby_In in Hin. destruct Hin as [Hna [-> Hne]].
  destruct (rows_with key k F) as [|r l] eqn:E; [contradiction|].
  split; [simpl; lia|]. split; [exact Hna|].
  exists r. assert (Hr : In r (rows_with key k F)) by (rewrite E; left; reflexivity).
  unfold rows_with in Hr. apply filter_In in Hr. destruct Hr as [Hr Hk].
  apply keqb_eq in Hk. auto.
Qed.

Lemma observed_rows_with (key : Row -> K) (F : DataFrame) (k : K) :
  observed key F k -> rows_with key k F <> [].
Proof.
  intros [_ [r [Hr E]]] Hnil. apply rows_with_nil_iff in Hnil. apply Hnil.
  rewrite <- E. apply in_map. exact Hr.
Qed.

(** [agg f (groupby key F)] is the table of [f] by [key] over [F]. *)
Lemma agg_groupby_is_table {V} (key : Row -> K) (f : DataFrame -> V) (F : DataFrame) :
  is_table key f F (agg f (groupby key F)).
Proof.
  split.
  - unfold keys_increasing. rewrite agg_keys. apply groupby_sorted.
  - intros k v. rewrite agg_In. split.
    + intros [rows [Hin ->]]. split.
      * eapply groupby_group_rows. exact Hin.
      * apply groupby_In in Hin. destruct Hin as [_ [-> _]]. reflexivity.
    + intros [Hobs ->]. exists (rows_with key k F). split; [|reflexivity].
      apply groupby_In. split; [apply Hobs|]. split; [reflexivity|].
      apply observed_rows_with. exact Hobs.
Qed.



End SortedKeys.

Lemma series_min_le (s : Series Z) (m x : Z) :
  series_min s = Some m -> In x s -> m <= x.
Proof.
  revert m. induction s as [|y s IH]; simpl; intros m Hm Hx; [contradiction|].
  destruct (series_min s) as [m'|] eqn:E.
  - injection Hm as <-. destruct Hx as [->|Hx]; [lia|].
    specialize (IH m' eq_refl Hx). lia.
  - injection Hm as <-. destruct Hx as [->|Hx]; [lia|].
    destruct s; [contradiction|]. simpl in E. destruct (series_min s); discriminate.
Qed.

Lemma series_max_ge (s : Series Z) (m x : Z) :
  series_max s = Some m -> In x s -> x <= m.
Proof.
  revert m. induction s as [|y s IH]; simpl; intros m Hm Hx; [contradiction|].
  destruct (series_max s) as [m'|] eqn:E.
  - injection Hm as <-. destruct Hx as [->|Hx]; [lia|].
    specialize (IH m' eq_refl Hx). lia.
  - injection Hm as <-. destruct Hx as [->|Hx]; [lia|].
    destruct s; [contradiction|]. simpl in E. destruct (series_max s); discriminate.
Qed.

Lemma series_min_some (s : Series Z) : s <> [] -> exists m, series_min s = Some m.
Proof.
  destruct s as [|x s]; [congruence|]. intros _. simpl.
  destruct (series_min s); eauto.
Qed.

Lemma series_max_some (s : Series Z) : s <> [] -> exists m, series_max s = Some m.
Proof.
  destruct s as [|x s]; [congruence|]. intros _. simpl.
  destruct (series_max s); eauto.
Qed.

Lemma unique_In (s : Series string) (x : string) : In x (unique s) <-> In x s.
Proof.
  induction s as [|y s IH]; simpl; [reflexivity|].
  rewrite filter_In, IH, negb_true_iff, String.eqb_neq.
  destruct (String.eqb_spec x y) as [->|Hne]; [tauto|].
  split; [intros [E|[Hx _]]; auto | intros [E|Hx]; [congruence | auto]].
Qed.

(** A filter that every row passes keeps the frame as it is. *)
Lemma filtered_df_all (ds : DataFrame) (fs : FilterState) :
  (forall r, In r ds -> satisfies fs r) -> filtered_df ds fs = ds.
Proof.
  intros Hall. rewrite filtered_df_filter. unfold FilteredRelation.
  induction ds as [|r ds IH]; simpl; [reflexivity|].
  rewrite (proj2 (satisfiesb_spec fs r) (Hall r (or_introl eq_refl))).
  f_equal. apply IH. intros r' Hr'. apply Hall. right. exact Hr'.
Qed.

Lemma series_min_In (s : Series Z) (m : Z) : series_min s = Some m -> In m s.
Proof.
  revert m. induction s as [|x s IH]; simpl; intros m; [discriminate|].
  destruct (series_min s) as [m'|]; intros [= <-]; [|left; reflexivity].
  destruct (Z.min_spec x m') as [[_ ->]|[_ ->]]; [left; reflexivity|].
  right. apply IH. reflexivity.
Qed.

Lemma series_max_In (s : Series Z) (m : Z) : series_max s = Some m -> In m s.
Proof.
  revert m. induction s as [|x s IH]; simpl; intros m; [discriminate|].
  destruct (series_max s) as [m'|]; intros [= <-]; [|left; reflexivity].
  destruct (Z.max_spec x m') as [[_ ->]|[_ ->]]; [|left; reflexivity].
  right. apply IH. reflexivity.
Qed.

(** [Series.min()] is the least cell, [Series.max()] the greatest. *)
Lemma series_min_is_least (s : Series Z) (lo : Z) :
  In lo s -> (forall y, In y s -> lo <= y) -> series_min s = Some lo.
Proof.
  intros Hin Hle.
  destruct (series_min_some s) as [m Hm]; [destruct s; [contradiction|discriminate]|].
  pose proof (series_min_le s m lo Hm Hin).
  pose proof (Hle m (series_min_In s m Hm)).
  rewrite Hm. f_equal. lia.
Qed.

Lemma series_max_is_greatest (s : Series Z) (hi : Z) :
  In hi s -> (forall y, In y s -> y <= hi) -> series_max s = Some hi.
Proof.
  intros Hin Hge.
  destruct (series_max_some s) as [m Hm]; [destruct s; [contradiction|discriminate]|].
  pose proof (series_max_ge s m hi Hm Hin).
  pose proof (Hge m (series_max_In s m Hm)).
  rewrite Hm. f_equal. lia.
Qed.

Lemma wrap64_in_range (z : Z) : in_int64 z -> wrap64 z = z.
Proof.
  unfold in_int64, wrap64. intros Hz.
  rewrite Z.mod_small by lia. lia.
Qed.

Lemma wrap64_add_r (x y : Z) : wrap64 (x + wrap64 y) = wrap64 (x + y).
Proof.
  unfold wrap64.
  replace (x + ((y + 2 ^ 63) mod 2 ^ 64 - 2 ^ 63) + 2 ^ 63)
    with (x + (y + 2 ^ 63) mod 2 ^ 64) by lia.
  rewrite Z.add_mod_idemp_r by lia.
  f_equal. f_equal. lia.
Qed.

(** The int64 sum is the exact sum, wrapped. *)
Lemma Zsum_wrap (s : Series Z) : Zsum s = wrap64 (exact_sum s).
Proof.
  induction s as [|x s IH]; simpl; [reflexivity|].
  rewrite IH. apply wrap64_add_r.
Qed.

(** ** The claims *)

(** C1: the frame [df[mask]] of lines 51-56 is exactly the rows of the
    dataset whose year lies in the selected range (ends included), whose
    job title is selected and whose industry is selected, the three
    conditions joined by "and"; it keeps the dataset's order and
    multiplicities; a row of the dataset that is left out fails one of the
    three conditions; and the dataset itself is as it was when [main] is
    done, in the variable [df] and in the loader's cache. *)
Theorem filtered_df_is_FilteredRelation (ds : DataFrame) (fs : FilterState) :
  filtered_df ds fs = FilteredRelation ds fs
  /\ (forall r, In r (filtered_df ds fs) <->
                In r ds
                /\ fst (year_range fs) <= Year r <= snd (year_range fs)
                /\ In (Job_Title r) (job_cats fs)
                /\ In (Industry r) (industries fs))
  /\ (forall r, In r ds -> ~ In r (filtered_df ds fs) ->
                ~ (fst (year_range fs) <= Year r <= snd (year_range fs))
                \/ ~ In (Job_Title r) (job_cats fs)
                \/ ~ In (Industry r) (industries fs))
  /\ page_df (render ds fs) = ds
  /\ (forall w src n,
        snd (main w {| source := src; reads := n; cache := Some ds |}) =
        {| source := src; reads := n; cache := Some ds |}).
Proof.
  split; [apply filtered_df_filter|].
  split; [intros r; apply filtered_df_In|].
  split; [|split; reflexivity].
  intros r Hr Hout.
  assert (Hs : satisfiesb fs r = false).
  { destruct (satisfiesb fs r) eqn:E; [|reflexivity].
    exfalso. apply Hout. apply filtered_df_In. split; [exact Hr|].
    apply satisfiesb_spec. exact E. }
  unfold satisfiesb in Hs.
  rewrite !andb_false_iff in Hs.
  destruct Hs as [[[Hlo|Hhi]|Hj]|Hi].
  - left. apply Z.leb_gt in Hlo. lia.
  - left. apply Z.leb_gt in Hhi. lia.
  - right. left. rewrite <- existsb_eqb_In. congruence.
  - right. right. rewrite <- existsb_eqb_In. congruence.
Qed.

(** C2: when no job title is selected the filtered frame is empty; on it
    the sum of Job_Openings is 0, the count and sum tables have no entry
    at all, and the three mean KPIs are [NaN], which is no number (so not
    0).  [render] is total: nothing is raised on the way. *)
Theorem empty_job_selection (ds : DataFrame) (fs : FilterState) :
  job_cats fs = [] ->
  page_filtered_df (render ds fs) = []
  /\ page_total_openings (render ds fs) = 0
  /\ page_ai_adoption (render ds fs) = []
  /\ page_skill_complex (render ds fs) = []
  /\ page_location_jobs (render ds fs) = []
  /\ page_remote_dist (render ds fs) = []
  /\ page_company_dist (render ds fs) = []
  /\ page_avg_salary (render ds fs) = NaN
  /\ page_avg_growth (render ds fs) = NaN
  /\ page_avg_diversity (render ds fs) = NaN
  /\ (forall q : Q, NaN <> Fin q).
Proof.
  intros Hj.
  assert (E : filtered_df ds fs = []).
  { destruct (filtered_df ds fs) as [|r l] eqn:Ef; [reflexivity|].
    assert (Hr : In r (filtered_df ds fs)) by (rewrite Ef; left; reflexivity).
    apply filtered_df_In in Hr. destruct Hr as [_ [_ [Hin _]]].
    rewrite Hj in Hin. contradiction. }
  unfold render; simpl. rewrite E.
  repeat split; try reflexivity. discriminate.
Qed.

(** The scenario dataset with no job title selected. *)
Lemma empty_job_selection_witness :
  page_filtered_df (render scenario_ds scenario_no_jobs) = []
  /\ page_total_openings (render scenario_ds scenario_no_jobs) = 0
  /\ page_avg_salary (render scenario_ds scenario_no_jobs) = NaN.
Proof.
  pose proof (empty_job_selection scenario_ds scenario_no_jobs eq_refl) as H.
  repeat split; apply H.
Defined.

(** C3, as stated, fails: a file whose header lacks a column that [main]
    reads is loaded without any error. *)
Lemma load_data_accepts_missing_column :
  ~ (forall df : RawFrame,
       lacks_column df -> exists e, fst (load_data (start (Csv df))) = inl e).
Proof.
  intros Hclaim.
  destruct (Hclaim headless) as [e He].
  - exists "Year". split; [left; reflexivity|].
    simpl. intros [E|[E|[]]]; discriminate.
  - simpl in He. discriminate.
Qed.

Lemma load_many_cached {Frame} (n : nat) (p : Process Frame) (df : Frame) :
  cache p = Some df -> load_many n p = (repeat (inr df) n, p).
Proof.
  intros Hc. induction n as [|n IH]; simpl; [reflexivity|].
  unfold load_data. rewrite Hc. rewrite IH. reflexivity.
Qed.

Lemma load_data_fills_cache {Frame} (p p' : Process Frame) (df : Frame) :
  load_data p = (inr df, p') -> cache p' = Some df.
Proof.
  unfold load_data. destruct (cache p) as [df0|] eqn:Hc.
  - intros [= <- <-]. exact Hc.
  - destruct (read_csv (source p)); intros [= <- <-]. reflexivity.
Qed.

(** C3, amended: once [load_data] has returned a frame, every later call
    returns that frame and reads nothing, whatever has become of the file;
    from a fresh process with a readable file any number of calls reads
    the file once; with nothing cached, an absent or empty file makes
    [load_data] raise the reader's exception; a file whose header lacks a
    column is loaded all the same, and [load_data] returns its frame. *)
Theorem load_data_cached_unchecked :
  (forall Frame (p p' : Process Frame) (df : Frame),
      load_data p = (inr df, p') ->
      forall src n,
        load_many n (overwrite src p') = (repeat (inr df) n, overwrite src p'))
  /\ (forall Frame (f : Frame) n,
         load_many (S n) (start (Csv f)) =
         (repeat (inr f) (S n),
          {| source := Csv f; reads := 1; cache := Some f |}))
  /\ (forall Frame (p : Process Frame),
         cache p = None -> source p = NoFile \/ source p = EmptyFile ->
         exists e, fst (load_data p) = inl e)
  /\ (forall df : RawFrame,
         lacks_column df ->
         load_data (start (Csv df)) =
         (inr df, {| source := Csv df; reads := 1; cache := Some df |})).
Proof.
  split; [|split; [|split]].
  - intros Frame p p' df Hload src n.
    apply load_many_cached. simpl. eapply load_data_fills_cache. exact Hload.
  - intros Frame f n. cbn [load_many]. unfold load_data at 1. cbn.
    rewrite load_many_cached with (df := f) by reflexivity. reflexivity.
  - intros Frame p Hc [Hs|Hs]; unfold load_data; rewrite Hc, Hs; simpl; eauto.
  - intros df _. reflexivity.
Qed.

(** A file without a Year column: loaded, cached, served after the file is gone. *)
Lemma load_data_cached_unchecked_witness :
  load_many 3 (overwrite NoFile (snd (load_data (start (Csv headless))))) =
    (repeat (inr headless) 3, overwrite NoFile (snd (load_data (start (Csv headless)))))
  /\ (exists e, fst (load_data (start (@NoFile RawFrame))) = inl e)
  /\ fst (load_data (start (Csv headless))) = inr headless.
Proof.
  destruct load_data_cached_unchecked as [Hcache [_ [Hfail Hraw]]].
  split; [|split].
  - apply (Hcache RawFrame (start (Csv headless)) _ headless eq_refl).
  - apply (Hfail RawFrame (start NoFile) eq_refl). left. reflexivity.
  - rewrite (Hraw headless); [reflexivity|].
    exists "Year". split; [left; reflexivity|].
    simpl. intros [E|[E|[]]]; discriminate.
Defined.

Lemma agg_groupby_increasing {K V} `{OrdKey K} `{NaKey K}
      (key : Row -> K) (f : DataFrame -> V) (F : DataFrame) :
  keys_increasing (agg f (groupby key F)).
Proof. apply (agg_groupby_is_table key f F). Qed.

(** C4: the page is a function of the dataset and of what the widgets
    select: two widget states that select the same years and the same
    sets of job titles and industries (in whatever order the lists hold
    them) give the same page, metric for metric and table for table; and
    in each of the eight tables the keys come in increasing order, which
    fixes the order of the entries from the key values alone. *)
Theorem render_deterministic (ds : DataFrame) (fs1 fs2 : FilterState) :
  same_selection fs1 fs2 ->
  render ds fs1 = render ds fs2
  /\ keys_increasing (page_salary_trends (render ds fs1))
  /\ keys_increasing (page_salary_exp (render ds fs1))
  /\ keys_increasing (page_ai_adoption (render ds fs1))
  /\ keys_increasing (page_skill_complex (render ds fs1))
  /\ keys_increasing (page_location_jobs (render ds fs1))
  /\ keys_increasing (page_remote_dist (render ds fs1))
  /\ keys_increasing (page_growth_industry (render ds fs1))
  /\ keys_increasing (page_company_dist (render ds fs1)).
Proof.
  intros [Hy [Hj Hi]]. split.
  - apply render_ext. apply filtered_df_ext; auto.
  - unfold render; simpl. repeat split; apply agg_groupby_increasing.
Qed.

(** The same selection, listed in another order and with a repeat. *)
Lemma render_deterministic_witness :
  render scenario_ds scenario_all =
  render scenario_ds
         {| year_range := (2020, 2021);
            job_cats := ["B"; "A"; "B"];
            industries := ["Y"; "X"] |}.
Proof.
  apply render_deterministic.
  split; [reflexivity|].
  split; intros x; simpl; tauto.
Defined.

(** C5: with the widget state at its default (the year range from the
    least to the greatest Year of the dataset, the selected job titles
    and industries those that occur in the dataset) the filtered frame is
    the dataset itself, row for row in the same order; and on a dataset
    with two different Years the untouched sidebar yields just this
    default. *)
Theorem default_filter_keeps_all (ds : DataFrame) (fs : FilterState) (lo hi : Z) :
  year_range fs = (lo, hi) ->
  In lo (getitem Year ds) -> (forall y, In y (getitem Year ds) -> lo <= y) ->
  In hi (getitem Year ds) -> (forall y, In y (getitem Year ds) -> y <= hi) ->
  (forall x, In x (job_cats fs) <-> In x (getitem Job_Title ds)) ->
  (forall x, In x (industries fs) <-> In x (getitem Industry ds)) ->
  filtered_df ds fs = ds
  /\ (lo < hi ->
      exists fs0,
        sidebar untouched ds = inr fs0
        /\ year_range fs0 = (lo, hi)
        /\ (forall x, In x (job_cats fs0) <-> In x (getitem Job_Title ds))
        /\ (forall x, In x (industries fs0) <-> In x (getitem Industry ds))
        /\ filtered_df ds fs0 = ds).
Proof.
  intros Hyr Hlo_in Hlo Hhi_in Hhi Hj Hi.
  assert (Hall : forall fs', year_range fs' = (lo, hi) ->
            (forall x, In x (job_cats fs') <-> In x (getitem Job_Title ds)) ->
            (forall x, In x (industries fs') <-> In x (getitem Industry ds)) ->
            filtered_df ds fs' = ds).
  { intros fs' Hyr' Hj' Hi'. apply filtered_df_all. intros r Hr.
    unfold satisfies. rewrite Hyr'. cbn [fst snd].
    split; [split|split].
    - apply Hlo. apply in_map. exact Hr.
    - apply Hhi. apply in_map. exact Hr.
    - apply Hj'. apply in_map. exact Hr.
    - apply Hi'. apply in_map. exact Hr. }
  split; [apply Hall; assumption|].
  intros Hlt. unfold sidebar.
  rewrite (series_min_is_least _ lo Hlo_in Hlo).
  rewrite (series_max_is_greatest _ hi Hhi_in Hhi).
  destruct (hi <=? lo) eqn:E; [apply Z.leb_le in E; lia|].
  cbn [untouched slider multiselect].
  eexists. split; [reflexivity|]. cbn [year_range job_cats industries].
  split; [reflexivity|].
  split; [intros x; apply unique_In|].
  split; [intros x; apply unique_In|].
  apply Hall; cbn [year_range job_cats industries];
    [reflexivity | intros x; apply unique_In | intros x; apply unique_In].
Qed.

(** The scenario dataset, Years 2020 and 2021, under the full selection. *)
Lemma default_filter_keeps_all_witness :
  filtered_df scenario_ds scenario_all = scenario_ds
  /\ exists fs0,
       sidebar untouched scenario_ds = inr fs0
       /\ filtered_df scenario_ds fs0 = scenario_ds.
Proof.
  assert (Hle : forall y, In y (getitem Year scenario_ds) -> 2020 <= y <= 2021)
    by (intros y [<-|[<-|[]]]; simpl; lia).
  destruct (default_filter_keeps_all scenario_ds scenario_all 2020 2021)
    as [Hspec Hcode].
  - reflexivity.
  - simpl. auto.
  - intros y Hy. apply Hle. exact Hy.
  - simpl. auto.
  - intros y Hy. apply Hle. exact Hy.
  - intros x. simpl. tauto.
  - intros x. simpl. tauto.
  - split; [exact Hspec|].
    destruct Hcode as [fs0 [H1 [_ [_ [_ H5]]]]]; [lia|].
    exists fs0. split; assumption.
Defined.

(** C6: widening the year range, or selecting more job titles or more
    industries (one dimension or several at once, the others unchanged),
    keeps every row that was in the filtered frame, in the same order; so
    the row count does not go down. *)
Theorem filtered_df_monotone (ds : DataFrame) (fs1 fs2 : FilterState) :
  widens fs1 fs2 ->
  Subseq (filtered_df ds fs1) (filtered_df ds fs2)
  /\ (forall r, In r (filtered_df ds fs1) -> In r (filtered_df ds fs2))
  /\ (List.length (filtered_df ds fs1) <= List.length (filtered_df ds fs2))%nat.
Proof.
  intros [Hlo [Hhi [Hj Hi]]].
  assert (Hsub : Subseq (filtered_df ds fs1) (filtered_df ds fs2)).
  { rewrite !filtered_df_filter. unfold FilteredRelation.
    apply filter_Subseq. intros r _.
    rewrite !satisfiesb_spec. unfold satisfies.
    intros [[H1 H2] [H3 H4]].
    split; [lia|]. split; [apply Hj; exact H3 | apply Hi; exact H4]. }
  split; [exact Hsub|]. split.
  - apply Subseq_In. exact Hsub.
  - apply Subseq_length. exact Hsub.
Qed.

(** From the scenario filter to the full selection. *)
Lemma filtered_df_monotone_witness :
  (List.length (filtered_df scenario_ds scenario_fs)
   <= List.length (filtered_df scenario_ds scenario_all))%nat.
Proof.
  apply (filtered_df_monotone scenario_ds scenario_fs scenario_all).
  unfold widens, incl; simpl.
  split; [lia|]. split; [lia|]. split; intros a H; tauto.
Defined.











(** C9: a string that is no job title of the dataset can be added to the
    selected job titles without changing the filtered frame, nor anything
    on the page; likewise a string that is no industry of the dataset and
    the selected industries. *)
Theorem unseen_value_irrelevant (ds : DataFrame) (fs : FilterState) (s : string) :
  (~ In s (getitem Job_Title ds) ->
   filtered_df ds (add_job s fs) = filtered_df ds fs
   /\ render ds (add_job s fs) = render ds fs)
  /\ (~ In s (getitem Industry ds) ->
      filtered_df ds (add_industry s fs) = filtered_df ds fs
      /\ render ds (add_industry s fs) = render ds fs).
Proof.
  split; intros Hs.
  - assert (E : filtered_df ds (add_job s fs) = filtered_df ds fs).
    { apply filtered_df_ext; simpl; try reflexivity; try tauto.
      intros r Hr. split; [|auto].
      intros [E|Hin]; [|exact Hin].
      exfalso. apply Hs. rewrite E. unfold getitem. apply in_map. exact Hr. }
    split; [exact E | apply render_ext; exact E].
  - assert (E : filtered_df ds (add_industry s fs) = filtered_df ds fs).
    { apply filtered_df_ext; simpl; try reflexivity; try tauto.
      intros r Hr. split; [|auto].
      intros [E|Hin]; [|exact Hin].
      exfalso. apply Hs. rewrite E. unfold getitem. apply in_map. exact Hr. }
    split; [exact E | apply render_ext; exact E].
Qed.

(** Job title C and industry Z occur nowhere in the scenario dataset. *)
Lemma unseen_value_irrelevant_witness :
  render scenario_ds (add_job "C" scenario_fs) = render scenario_ds scenario_fs
  /\ render scenario_ds (add_industry "Z" scenario_fs) = render scenario_ds scenario_fs.
Proof.
  split.
  - apply (unseen_value_irrelevant scenario_ds scenario_fs "C").
    simpl. intros [E|[E|[]]]; discriminate.
  - apply (unseen_value_irrelevant scenario_ds scenario_fs "Z").
    simpl. intros [E|[E|[]]]; discriminate.
Defined.

Lemma agg_key_observed {K V} `{OrdKey K} `{NaKey K}
      (key : Row -> K) (f : DataFrame -> V) (F : DataFrame) (k : K) (v : V) :
  In (k, v) (agg f (groupby key F)) -> exists r, In r F /\ key r = k.
Proof.
  intros Hin. apply agg_In in Hin. destruct Hin as [rows [Hin _]].
  apply groupby_group_rows in Hin. apply Hin.
Qed.

Lemma agg_size_positive {K} `{OrdKey K} `{NaKey K}
      (key : Row -> K) (F : DataFrame) (k : K) (n : nat) :
  In (k, n) (agg size (groupby key F)) -> (1 <= n)%nat.
Proof.
  intros Hin. apply agg_In in Hin. destruct Hin as [rows [Hin ->]].
  apply groupby_group_rows in Hin. apply Hin.
Qed.

(** C10: every key of every one of the eight tables is the key of some
    row of the filtered frame, and every count in the four count tables
    is at least 1. *)
Theorem table_keys_observed (ds : DataFrame) (fs : FilterState) :
  (forall k v, In (k, v) (page_salary_trends (render ds fs)) ->
     exists r, In r (filtered_df ds fs) /\ (Year r, Job_Title r) = k)
  /\ (forall k v, In (k, v) (page_salary_exp (render ds fs)) ->
     exists r, In r (filtered_df ds fs) /\ (Experience_Level r, Job_Title r) = k)
  /\ (forall k v, In (k, v) (page_ai_adoption (render ds fs)) ->
     (1 <= v)%nat
     /\ exists r, In r (filtered_df ds fs) /\ (Industry r, AI_Adoption_Level r) = k)
  /\ (forall k v, In (k, v) (page_skill_complex (render ds fs)) ->
     (1 <= v)%nat
     /\ exists r, In r (filtered_df ds fs) /\ (Job_Title r, Skill_Complexity r) = k)
  /\ (forall k v, In (k, v) (page_location_jobs (render ds fs)) ->
     exists r, In r (filtered_df ds fs) /\ (Location r, Job_Title r) = k)
  /\ (forall k v, In (k, v) (page_remote_dist (render ds fs)) ->
     (1 <= v)%nat
     /\ exists r, In r (filtered_df ds fs) /\ (Job_Title r, Remote_Work r) = k)
  /\ (forall k v, In (k, v) (page_growth_industry (render ds fs)) ->
     exists r, In r (filtered_df ds fs) /\ Industry r = k)
  /\ (forall k v, In (k, v) (page_company_dist (render ds fs)) ->
     (1 <= v)%nat
     /\ exists r, In r (filtered_df ds fs) /\ (Company_Size r, Job_Title r) = k).
Proof.
  unfold render; simpl.
  unfold salary_trends, salary_exp, ai_adoption, skill_complex, location_jobs,
    remote_dist, growth_industry, company_dist.
  repeat match goal with |- _ /\ _ => split end;
    intros k v Hin;
    try (split; [apply agg_size_positive in Hin; exact Hin|]);
    apply agg_key_observed in Hin; exact Hin.
Qed.

(** ** Further properties of the page *)

From Stdlib Require Import Permutation.

(** The total of a count table, and the int64 sum of a sum table. *)
Definition total_count {K} (t : list (K * nat)) : nat :=
  list_sum (map snd t).

Definition total_sum {K} (t : list (K * Z)) : Z :=
  Zsum (map snd t).

(** The counts of [t] add up to the number of rows of [F] whose key has
    no missing cell; that is the number of rows of [F] when no key cell
    is missing. *)
Definition counts_rows {K} `{NaKey K}
    (key : Row -> K) (F : DataFrame) (t : list (K * nat)) : Prop :=
  total_count t = List.length (dropna key F)
  /\ (no_missing key F -> total_count t = List.length F).

(** [t] has at most one entry per row of [F], and none at all exactly
    when every row of [F] has a missing cell in its key. *)
Definition fits {K V} `{NaKey K}
    (key : Row -> K) (F : DataFrame) (t : list (K * V)) : Prop :=
  (List.length t <= List.length F)%nat
  /\ (t = [] <-> forall r, In r F -> isna (key r) = true).

Lemma wrap64_exact_sum_map {A} (h : A -> Z) (l : list A) :
  wrap64 (exact_sum (map (fun a => wrap64 (h a)) l)) =
  wrap64 (exact_sum (map h l)).
Proof.
  induction l as [|a l IH]; simpl; [reflexivity|].
  rewrite <- wrap64_add_r, IH, wrap64_add_r.
  rewrite (Z.add_comm (wrap64 (h a))), wrap64_add_r.
  f_equal. lia.
Qed.

Section GroupTotals.
Context {K : Type} `{OrdKey K} `{NaKey K}.

Lemma dropna_all (key : Row -> K) (F : DataFrame) :
  no_missing key F -> dropna key F = F.
Proof.
  intros Hall. unfold dropna. induction F as [|r F IH]; simpl; [reflexivity|].
  rewrite (Hall r (or_introl eq_refl)). simpl. f_equal.
  apply IH. intros r' Hr'. apply Hall. right. exact Hr'.
Qed.

Lemma dropna_length (key : Row -> K) (F : DataFrame) :
  (List.length (dropna key F) <= List.length F)%nat.
Proof.
  unfold dropna. induction F as [|r F IH]; simpl; [lia|].
  destruct (negb (isna (key r))); simpl; lia.
Qed.

Lemma dropna_nil_iff (key : Row -> K) (F : DataFrame) :
  dropna key F = [] <-> forall r, In r F -> isna (key r) = true.
Proof.
  unfold dropna. induction F as [|r F IH]; simpl.
  - split; [intros _ r [] | reflexivity].
  - destruct (isna (key r)) eqn:E; simpl.
    + rewrite IH. split.
      * intros Hall r' [<-|Hr']; [exact E | apply Hall; exact Hr'].
      * intros Hall r' Hr'. apply Hall. right. exact Hr'.
    + split; [discriminate|]. intros Hall.
      rewrite (Hall r (or_introl eq_refl)) in E. discriminate.
Qed.

Lemma add_row_sizes (k : K) (r : Row) (g : list (K * DataFrame)) :
  total_count (agg size (add_row k r g)) = S (total_count (agg size g)).
Proof.
  unfold total_count, agg, size.
  induction g as [|[k0 rows] g IH]; simpl; [reflexivity|].
  destruct (kcmp k k0); simpl; [reflexivity | reflexivity |].
  rewrite IH. lia.
Qed.

Lemma groupby_sizes (key : Row -> K) (F : DataFrame) :
  total_count (agg size (groupby key F)) = List.length (dropna key F).
Proof.
  unfold groupby. induction (dropna key F) as [|r F' IH]; simpl; [reflexivity|].
  rewrite add_row_sizes, IH. reflexivity.
Qed.

Lemma add_row_exact (col : Row -> Z) (k : K) (r : Row) (g : list (K * DataFrame)) :
  exact_sum (map (fun kg => exact_sum (map col (snd kg))) (add_row k r g)) =
  col r + exact_sum (map (fun kg => exact_sum (map col (snd kg))) g).
Proof.
  unfold exact_sum.
  induction g as [|[k0 rows] g IH]; simpl; [lia|].
  destruct (kcmp k k0); simpl; [lia | lia |].
  rewrite IH. lia.
Qed.

Lemma group_rows_exact (col : Row -> Z) (key : Row -> K) (F : DataFrame) :
  exact_sum (map (fun kg => exact_sum (map col (snd kg))) (group_rows key F)) =
  exact_sum (map col F).
Proof.
  induction F as [|r F IH]; simpl; [reflexivity|].
  rewrite add_row_exact, IH. reflexivity.
Qed.

Lemma groupby_sums (col : Row -> Z) (key : Row -> K) (F : DataFrame) :
  total_sum (agg (fun rows => Zsum (getitem col rows)) (groupby key F)) =
  Zsum (getitem col (dropna key F)).
Proof.
  unfold total_sum, agg, groupby, getitem. rewrite map_map. cbn [snd].
  rewrite !Zsum_wrap.
  rewrite (map_ext _ (fun kg => wrap64 (exact_sum (map col (snd kg)))))
    by (intros kg; apply Zsum_wrap).
  rewrite wrap64_exact_sum_map, group_rows_exact. reflexivity.
Qed.

Lemma add_row_length (k : K) (r : Row) (g : list (K * DataFrame)) :
  (List.length g <= List.length (add_row k r g) <= S (List.length g))%nat.
Proof.
  induction g as [|[k0 rows] g IH]; simpl; [lia|].
  destruct (kcmp k k0); simpl; lia.
Qed.

Lemma group_rows_length (key : Row -> K) (F : DataFrame) :
  (List.length (group_rows key F) <= List.length F)%nat.
Proof.
  induction F as [|r F IH]; simpl; [lia|].
  pose proof (add_row_length (key r) r (group_rows key F)). lia.
Qed.

Lemma group_rows_nil_iff (key : Row -> K) (F : DataFrame) :
  group_rows key F = [] <-> F = [].
Proof.
  split; [|intros ->; reflexivity].
  destruct F as [|r F]; [reflexivity|]. simpl. intros E.
  pose proof (add_row_length (key r) r (group_rows key F)) as Hl.
  rewrite E in Hl. destruct (group_rows key F) as [|[k0 rows] g] eqn:Eg;
    simpl in *; [discriminate|].
  destruct (kcmp (key r) k0); discriminate.
Qed.

(** Every group holds the rows of its key, so the groups can be rebuilt
    from the key column alone. *)
Lemma groupby_canonical (key : Row -> K) (F : DataFrame) :
  groupby key F =
  map (fun k => (k, rows_with key k F)) (map fst (groupby key F)).
Proof.
  assert (Hall : forall kr, In kr (groupby key F) ->
                            snd kr = rows_with key (fst kr) F).
  { intros [k rows] Hin. apply groupby_In in Hin. apply Hin. }
  induction (groupby key F) as [|[k rows] g IH]; simpl; [reflexivity|].
  pose proof (Hall (k, rows) (or_introl eq_refl)) as E. simpl in E.
  rewrite <- E. f_equal. apply IH. intros kr Hkr. apply Hall. right. exact Hkr.
Qed.

Lemma agg_groupby_counts (key : Row -> K) (F : DataFrame) :
  counts_rows key F (agg size (groupby key F)).
Proof.
  split; [apply groupby_sizes|].
  intros Hall. rewrite groupby_sizes, dropna_all by exact Hall. reflexivity.
Qed.

Lemma agg_groupby_fits {V} (key : Row -> K) (f : DataFrame -> V) (F : DataFrame) :
  fits key F (agg f (groupby key F)).
Proof.
  unfold fits, agg, groupby. rewrite length_map. split.
  - pose proof (group_rows_length key (dropna key F)).
    pose proof (dropna_length key F). lia.
  - rewrite <- dropna_nil_iff, <- (group_rows_nil_iff key (dropna key F)).
    destruct (group_rows key (dropna key F)); simpl; split; congruence.
Qed.
End GroupTotals.

(** X1: in each of the four count tables the counts add up to the number
    of filtered rows whose two key cells are both present; when no
    filtered row has a missing key cell, that is the number of rows of
    the filtered frame: every such row is counted in one bar, and in one
    only. *)
Theorem count_tables_total (ds : DataFrame) (fs : FilterState) :
  counts_rows (fun r => (Industry r, AI_Adoption_Level r))
              (filtered_df ds fs) (page_ai_adoption (render ds fs))
  /\ counts_rows (fun r => (Job_Title r, Skill_Complexity r))
                 (filtered_df ds fs) (page_skill_complex (render ds fs))
  /\ counts_rows (fun r => (Job_Title r, Remote_Work r))
                 (filtered_df ds fs) (page_remote_dist (render ds fs))
  /\ counts_rows (fun r => (Company_Size r, Job_Title r))
                 (filtered_df ds fs) (page_company_dist (render ds fs)).
Proof.
  unfold render; simpl.
  unfold ai_adoption, skill_complex, remote_dist, company_dist.
  repeat match goal with |- counts_rows _ _ _ /\ _ => split end;
    apply agg_groupby_counts.
Qed.

(** X2: when no filtered row has a missing Location or Job_Title cell,
    the openings of the table by (Location, Job_Title), added up as an
    int64 column, give the "Total Job Openings" metric. *)
Theorem location_jobs_total (ds : DataFrame) (fs : FilterState) :
  int64_column Job_Openings ds ->
  no_missing (fun r => (Location r, Job_Title r)) (filtered_df ds fs) ->
  total_sum (page_location_jobs (render ds fs)) =
  page_total_openings (render ds fs).
Proof.
  intros _ Hall. unfold render; simpl. unfold location_jobs, total_openings.
  rewrite groupby_sums, dropna_all by exact Hall. reflexivity.
Qed.

(** The scenario: no cell of it is missing. *)
Lemma location_jobs_total_witness :
  total_sum (page_location_jobs (render scenario_ds scenario_all)) =
  page_total_openings (render scenario_ds scenario_all).
Proof.
  apply (location_jobs_total scenario_ds scenario_all).
  - intros r [<-|[<-|[]]]; unfold in_int64; simpl; lia.
  - intros r [<-|[<-|[]]]; reflexivity.
Defined.

(** X3: no table has more entries than the filtered frame has rows, and
    a table is empty exactly when every filtered row has a missing cell
    in the table's key (so, when the filtered frame is empty). *)
Theorem tables_fit_filtered (ds : DataFrame) (fs : FilterState) :
  fits (fun r => (Year r, Job_Title r))
       (filtered_df ds fs) (page_salary_trends (render ds fs))
  /\ fits (fun r => (Experience_Level r, Job_Title r))
          (filtered_df ds fs) (page_salary_exp (render ds fs))
  /\ fits (fun r => (Industry r, AI_Adoption_Level r))
          (filtered_df ds fs) (page_ai_adoption (render ds fs))
  /\ fits (fun r => (Job_Title r, Skill_Complexity r))
          (filtered_df ds fs) (page_skill_complex (render ds fs))
  /\ fits (fun r => (Location r, Job_Title r))
          (filtered_df ds fs) (page_location_jobs (render ds fs))
  /\ fits (fun r => (Job_Title r, Remote_Work r))
          (filtered_df ds fs) (page_remote_dist (render ds fs))
  /\ fits Industry
          (filtered_df ds fs) (page_growth_industry (render ds fs))
  /\ fits (fun r => (Company_Size r, Job_Title r))
          (filtered_df ds fs) (page_company_dist (render ds fs)).
Proof.
  unfold render; simpl.
  repeat match goal with |- fits _ _ _ /\ _ => split end;
    apply agg_groupby_fits.
Qed.

Lemma exact_sum_Subseq (col : Row -> Z) (l1 l2 : DataFrame) :
  Subseq l1 l2 ->
  (forall r, In r l2 -> 0 <= col r) ->
  0 <= exact_sum (map col l1) <= exact_sum (map col l2).
Proof.
  unfold exact_sum.
  induction 1 as [|x l1 l2 Hs IH|x l1 l2 Hs IH]; simpl; intros Hpos.
  - lia.
  - pose proof (Hpos x (or_introl eq_refl)).
    assert (0 <= fold_right Z.add 0 (map col l1) <= fold_right Z.add 0 (map col l2))
      by (apply IH; intros r Hr; apply Hpos; right; exact Hr).
    lia.
  - pose proof (Hpos x (or_introl eq_refl)).
    assert (0 <= fold_right Z.add 0 (map col l1) <= fold_right Z.add 0 (map col l2))
      by (apply IH; intros r Hr; apply Hpos; right; exact Hr).
    lia.
Qed.

Lemma filtered_df_Subseq_ds (ds : DataFrame) (fs : FilterState) :
  Subseq (filtered_df ds fs) ds.
Proof.
  rewrite filtered_df_filter. unfold FilteredRelation.
  induction ds as [|r ds IH]; simpl; [constructor|].
  destruct (satisfiesb fs r); [apply Subseq_keep | apply Subseq_skip]; exact IH.
Qed.

(** X5: on a dataset without negative Job_Openings whose openings add
    up to less than 2^63, the "Total Job Openings" metric is never
    negative, never exceeds the total of the whole dataset, and does not
    go down when the selection is widened. *)
Theorem total_openings_monotone (ds : DataFrame) (fs1 fs2 : FilterState) :
  (forall r, In r ds -> 0 <= Job_Openings r) ->
  exact_sum (map Job_Openings ds) < 2 ^ 63 ->
  widens fs1 fs2 ->
  0 <= page_total_openings (render ds fs1)
  /\ page_total_openings (render ds fs1) <= page_total_openings (render ds fs2)
  /\ page_total_openings (render ds fs2) <= Zsum (getitem Job_Openings ds).
Proof.
  intros Hpos Hfit [Hlo [Hhi [Hj Hi]]]. unfold render; simpl.
  unfold total_openings, getitem.
  assert (Hsub : Subseq (filtered_df ds fs1) (filtered_df ds fs2)).
  { rewrite !filtered_df_filter. unfold FilteredRelation.
    apply filter_Subseq. intros r _.
    rewrite !satisfiesb_spec. unfold satisfies.
    intros [[H1 H2] [H3 H4]].
    split; [lia|]. split; [apply Hj; exact H3 | apply Hi; exact H4]. }
  assert (Hpos2 : forall r, In r (filtered_df ds fs2) -> 0 <= Job_Openings r).
  { intros r Hr. apply Hpos. apply filtered_df_In in Hr. apply Hr. }
  pose proof (exact_sum_Subseq Job_Openings _ _ Hsub Hpos2) as H12.
  pose proof (exact_sum_Subseq Job_Openings _ _ (filtered_df_Subseq_ds ds fs2) Hpos)
    as H2d.
  rewrite !Zsum_wrap.
  rewrite !wrap64_in_range by (unfold in_int64; lia).
  lia.
Qed.

(** The scenario: 5 openings under the narrow filter, 8 under the full one. *)
Lemma total_openings_monotone_witness :
  0 <= page_total_openings (render scenario_ds scenario_fs)
  /\ page_total_openings (render scenario_ds scenario_fs)
     <= page_total_openings (render scenario_ds scenario_all)
  /\ page_total_openings (render scenario_ds scenario_all)
     <= Zsum (getitem Job_Openings scenario_ds).
Proof.
  apply (total_openings_monotone scenario_ds scenario_fs scenario_all).
  - intros r [<-|[<-|[]]]; simpl; lia.
  - simpl. lia.
  - unfold widens, incl; simpl.
    split; [lia|]. split; [lia|]. split; intros a Ha; tauto.
Defined.

Lemma filter_swap {A} (f g : A -> bool) (l : list A) :
  List.filter f (List.filter g l) = List.filter g (List.filter f l).
Proof.
  induction l as [|x l IH]; simpl; [reflexivity|].
  destruct (f x) eqn:Ef, (g x) eqn:Eg; simpl; rewrite ?Ef, ?Eg, IH; reflexivity.
Qed.

Lemma filter_twice {A} (f : A -> bool) (l : list A) :
  List.filter f (List.filter f l) = List.filter f l.
Proof.
  induction l as [|x l IH]; simpl; [reflexivity|].
  destruct (f x) eqn:Ef; simpl; rewrite ?Ef, IH; reflexivity.
Qed.

(** X6: filtering a filtered frame again with the same widget state
    changes nothing, and two filters applied one after the other give
    the same frame in either order. *)
Theorem filtered_df_compose (ds : DataFrame) (fs1 fs2 : FilterState) :
  filtered_df (filtered_df ds fs1) fs1 = filtered_df ds fs1
  /\ filtered_df (filtered_df ds fs1) fs2 = filtered_df (filtered_df ds fs2) fs1.
Proof.
  rewrite !filtered_df_filter. unfold FilteredRelation. split.
  - apply filter_twice.
  - apply filter_swap.
Qed.

(** X7: the tables show selected values only: a Job_Title in a key is a
    selected job title, an Industry in a key is a selected industry, and
    a Year in a key lies within the selected range. *)
Theorem table_keys_selected (ds : DataFrame) (fs : FilterState) :
  (forall y j v, In ((y, j), v) (page_salary_trends (render ds fs)) ->
     fst (year_range fs) <= y <= snd (year_range fs) /\ In j (job_cats fs))
  /\ (forall e j v, In ((e, j), v) (page_salary_exp (render ds fs)) ->
     In j (job_cats fs))
  /\ (forall i a v, In ((i, a), v) (page_ai_adoption (render ds fs)) ->
     In i (industries fs))
  /\ (forall j c v, In ((j, c), v) (page_skill_complex (render ds fs)) ->
     In j (job_cats fs))
  /\ (forall l j v, In ((l, j), v) (page_location_jobs (render ds fs)) ->
     In j (job_cats fs))
  /\ (forall j w v, In ((j, w), v) (page_remote_dist (render ds fs)) ->
     In j (job_cats fs))
  /\ (forall i v, In (i, v) (page_growth_industry (render ds fs)) ->
     In i (industries fs))
  /\ (forall c j v, In ((c, j), v) (page_company_dist (render ds fs)) ->
     In j (job_cats fs)).
Proof.
  unfold render; simpl.
  unfold salary_trends, salary_exp, ai_adoption, skill_complex, location_jobs,
    remote_dist, growth_industry, company_dist.
  repeat match goal with |- _ /\ _ => split end; intros;
    match goal with
    | Hin : In _ (agg _ (groupby _ _)) |- _ =>
        apply agg_key_observed in Hin;
        destruct Hin as [r [Hr Hk]];
        apply filtered_df_In in Hr;
        destruct Hr as [_ [Hy [Hj Hi]]];
        try injection Hk as <- <-; try subst; auto
    end.
Qed.

Lemma Permutation_filter_same {A} (f : A -> bool) (l l' : list A) :
  Permutation l l' -> Permutation (List.filter f l) (List.filter f l').
Proof.
  induction 1 as [|x l l' Hp IH|x y l|l l' l'' H1 IH1 H2 IH2]; simpl.
  - constructor.
  - destruct (f x); [constructor|]; exact IH.
  - destruct (f x), (f y); try apply Permutation_refl. constructor.
  - eapply Permutation_trans; eassumption.
Qed.

Lemma exact_sum_Permutation (l l' : list Z) :
  Permutation l l' -> exact_sum l = exact_sum l'.
Proof. unfold exact_sum. induction 1; simpl; lia. Qed.

Lemma Zsum_Permutation (l l' : list Z) :
  Permutation l l' -> Zsum l = Zsum l'.
Proof.
  intros Hp. rewrite !Zsum_wrap, (exact_sum_Permutation l l' Hp). reflexivity.
Qed.

Section RowOrder.
Context {K : Type} `{OrdKey K} `{NaKey K}.

(** An aggregate that does not look at the order of the rows gives the
    same table on a reordered frame. *)
Lemma agg_groupby_Permutation {V} (f : DataFrame -> V) (key : Row -> K)
      (F F' : DataFrame) :
  (forall g g', Permutation g g' -> f g = f g') ->
  Permutation F F' ->
  agg f (groupby key F) = agg f (groupby key F').
Proof.
  intros Hf Hp.
  rewrite (groupby_canonical key F), (groupby_canonical key F').
  rewrite (groupby_keys_fixed key F F').
  - unfold agg. rewrite !map_map. simpl. apply map_ext. intros k.
    f_equal. apply Hf. unfold rows_with. apply Permutation_filter_same. exact Hp.
  - intros k. split; apply Permutation_in;
      [|apply Permutation_sym]; apply Permutation_map; exact Hp.
Qed.
End RowOrder.

(** X8: the order of the rows in the dataset does not matter to the
    four count tables, to the openings table, nor to the "Total Job
    Openings" metric: a reordered dataset gives the same entries in the
    same order. *)
Theorem row_order_irrelevant (ds ds' : DataFrame) (fs : FilterState) :
  Permutation ds ds' ->
  page_ai_adoption (render ds fs) = page_ai_adoption (render ds' fs)
  /\ page_skill_complex (render ds fs) = page_skill_complex (render ds' fs)
  /\ page_remote_dist (render ds fs) = page_remote_dist (render ds' fs)
  /\ page_company_dist (render ds fs) = page_company_dist (render ds' fs)
  /\ page_location_jobs (render ds fs) = page_location_jobs (render ds' fs)
  /\ page_total_openings (render ds fs) = page_total_openings (render ds' fs).
Proof.
  intros Hp.
  assert (Hf : Permutation (filtered_df ds fs) (filtered_df ds' fs)).
  { rewrite !filtered_df_filter. apply Permutation_filter_same. exact Hp. }
  assert (Hsize : forall g g' : DataFrame, Permutation g g' -> size g = size g').
  { intros g g'. apply Permutation_length. }
  assert (Hsum : forall g g' : DataFrame, Permutation g g' ->
                   Zsum (getitem Job_Openings g) = Zsum (getitem Job_Openings g')).
  { intros g g' Hg. apply Zsum_Permutation. apply Permutation_map. exact Hg. }
  unfold render; simpl.
  unfold ai_adoption, skill_complex, remote_dist, company_dist, location_jobs,
    total_openings.
  repeat split; try (apply agg_groupby_Permutation; assumption).
  apply Hsum. exact Hf.
Qed.

(** The scenario dataset with its two rows swapped. *)
Lemma row_order_irrelevant_witness :
  page_ai_adoption (render scenario_ds scenario_all) =
  page_ai_adoption (render [scenario_row2; scenario_row1] scenario_all).
Proof.
  apply (row_order_irrelevant scenario_ds [scenario_row2; scenario_row1]).
  apply perm_swap.
Defined.

(** ** Further properties of the sidebar and of the loader *)




Lemma unique_NoDup (s : Series string) : NoDup (unique s).
Proof.
  induction s as [|x s IH]; simpl; constructor.
  - rewrite filter_In, negb_true_iff, String.eqb_neq. intros [_ Hne]. congruence.
  - apply NoDup_filter. exact IH.
Qed.

Lemma nodup_snoc (l : list string) (x : string) :
  nodup string_dec (l ++ [x]) =
  List.filter (fun y => negb (String.eqb y x)) (nodup string_dec l) ++ [x].
Proof.
  induction l as [|a l IH]; simpl; [reflexivity|].
  destruct (in_dec string_dec a (l ++ [x])) as [Hin|Hin];
    destruct (in_dec string_dec a l) as [Hin'|Hin']; simpl.
  - exact IH.
  - assert (a = x) as ->.
    { apply in_app_or in Hin. destruct Hin as [Hin|[E|[]]]; [contradiction|auto]. }
    rewrite String.eqb_refl. simpl. exact IH.
  - exfalso. apply Hin. apply in_or_app. left. exact Hin'.
  - destruct (String.eqb_spec a x) as [->|Hne]; simpl.
    + exfalso. apply Hin. apply in_or_app. right. left. reflexivity.
    + rewrite IH. reflexivity.
Qed.

(** [unique] lists the distinct values by their first appearance:
    [nodup] keeps of every value its last copy, so on the reversed
    column it keeps the first one. *)
Lemma unique_first_appearance (s : Series string) :
  unique s = rev (nodup string_dec (rev s)).
Proof.
  induction s as [|x s IH]; simpl; [reflexivity|].
  rewrite nodup_snoc, rev_app_distr. simpl.
  rewrite <- filter_rev, <- IH. reflexivity.
Qed.

(** X10: the defaults the untouched sidebar offers: the year range runs
    from the least Year of the dataset to the greatest, which differ;
    the job titles (and the industries) are those of the dataset, each
    listed once, in the order in which they first appear in the column
    (the reversed column with all but the last copy of each value
    removed, reversed back). *)
Theorem sidebar_defaults (ds : DataFrame) (fs : FilterState) :
  sidebar untouched ds = inr fs ->
  fst (year_range fs) < snd (year_range fs)
  /\ In (fst (year_range fs)) (getitem Year ds)
  /\ In (snd (year_range fs)) (getitem Year ds)
  /\ (forall y, In y (getitem Year ds) ->
                fst (year_range fs) <= y <= snd (year_range fs))
  /\ job_cats fs = rev (nodup string_dec (rev (getitem Job_Title ds)))
  /\ industries fs = rev (nodup string_dec (rev (getitem Industry ds)))
  /\ NoDup (job_cats fs)
  /\ (forall x, In x (job_cats fs) <-> In x (getitem Job_Title ds))
  /\ NoDup (industries fs)
  /\ (forall x, In x (industries fs) <-> In x (getitem Industry ds)).
Proof.
  unfold sidebar.
  destruct (series_min (getitem Year ds)) as [lo|] eqn:Hlo; [|discriminate].
  destruct (series_max (getitem Year ds)) as [hi|] eqn:Hhi; [|discriminate].
  destruct (hi <=? lo) eqn:E; [discriminate|]. apply Z.leb_gt in E.
  intros [= <-]. cbn [untouched slider multiselect year_range job_cats industries fst snd].
  split; [exact E|].
  split; [apply (series_min_In _ _ Hlo)|].
  split; [apply (series_max_In _ _ Hhi)|].
  split.
  { intros y Hy. split;
      [apply (series_min_le _ _ _ Hlo) | apply (series_max_ge _ _ _ Hhi)];
      exact Hy. }
  split; [apply unique_first_appearance|].
  split; [apply unique_first_appearance|].
  split; [apply unique_NoDup|]. split; [apply unique_In|].
  split; [apply unique_NoDup|]. apply unique_In.
Qed.

(** The defaults of the scenario dataset with a third row, a repeat of
    the second: B is listed once, after A. *)
Lemma sidebar_defaults_witness :
  exists fs,
    sidebar untouched (scenario_ds ++ [scenario_row2]) = inr fs
    /\ fst (year_range fs) < snd (year_range fs)
    /\ job_cats fs = ["A"; "B"].
Proof.
  eexists. split; [reflexivity|].
  destruct (sidebar_defaults (scenario_ds ++ [scenario_row2]) _ eq_refl)
    as [H1 [_ [_ [_ [H5 _]]]]].
  split; [exact H1 | exact H5].
Defined.

(** X11: a failed load is not cached: while the file is absent every
    call of [load_data] tries the file again and raises again; the first
    call after the file has appeared reads it, returns its frame and
    caches it. *)
Theorem load_data_failure_not_cached
        (Frame : Type) (p : Process Frame) (n : nat) (f : Frame) :
  cache p = None ->
  source p = NoFile ->
  load_many n p =
    (repeat (inl FileNotFoundError) n,
     {| source := NoFile; reads := (n + reads p)%nat; cache := None |})
  /\ load_data (overwrite (Csv f) (snd (load_many n p))) =
       (inr f, {| source := Csv f; reads := S (n + reads p); cache := Some f |}).
Proof.
  intros Hc Hs.
  assert (Hmany : load_many n p =
                  (repeat (inl FileNotFoundError) n,
                   {| source := NoFile; reads := (n + reads p)%nat; cache := None |})).
  { revert p Hc Hs. induction n as [|n IH]; intros p Hc Hs.
    - simpl. destruct p as [src k c]; simpl in *. subst. reflexivity.
    - cbn [load_many]. unfold load_data at 1. rewrite Hc, Hs. cbn [read_csv].
      rewrite IH by reflexivity. cbn [reads repeat].
      rewrite Nat.add_succ_r. reflexivity. }
  split; [exact Hmany|]. rewrite Hmany. reflexivity.
Qed.

(** Three calls without the file, then the file appears. *)
Lemma load_data_failure_not_cached_witness :
  load_many 3 (start (@NoFile RawFrame)) =
    (repeat (inl FileNotFoundError) 3,
     {| source := NoFile; reads := 3; cache := None |})
  /\ load_data (overwrite (Csv headless) (snd (load_many 3 (start NoFile)))) =
       (inr headless,
        {| source := Csv headless; reads := 4; cache := Some headless |}).
Proof.
  apply (load_data_failure_not_cached RawFrame (start NoFile) 3 headless);
    reflexivity.
Defined.

(** X13: with no industry selected, or with a year range whose upper end
    lies below its lower end, nothing passes the filter: the frame and
    all eight tables are empty, the openings total is 0 and the three
    averages are [NaN]. *)
Theorem nothing_selected (ds : DataFrame) (fs : FilterState) :
  industries fs = [] \/ snd (year_range fs) < fst (year_range fs) ->
  page_filtered_df (render ds fs) = []
  /\ page_total_openings (render ds fs) = 0
  /\ page_avg_salary (render ds fs) = NaN
  /\ page_avg_growth (render ds fs) = NaN
  /\ page_avg_diversity (render ds fs) = NaN
  /\ page_salary_trends (render ds fs) = []
  /\ page_salary_exp (render ds fs) = []
  /\ page_ai_adoption (render ds fs) = []
  /\ page_skill_complex (render ds fs) = []
  /\ page_location_jobs (render ds fs) = []
  /\ page_remote_dist (render ds fs) = []
  /\ page_growth_industry (render ds fs) = []
  /\ page_company_dist (render ds fs) = [].
Proof.
  intros Hsel.
  assert (E : filtered_df ds fs = []).
  { destruct (filtered_df ds fs) as [|r l] eqn:Ef; [reflexivity|].
    assert (Hr : In r (filtered_df ds fs)) by (rewrite Ef; left; reflexivity).
    apply filtered_df_In in Hr. destruct Hr as [_ [Hy [_ Hi]]].
    destruct Hsel as [Hnil|Hinv]; [rewrite Hnil in Hi; contradiction | lia]. }
  unfold render; simpl. rewrite E. repeat split; reflexivity.
Qed.

(** The scenario dataset under the range 2021..2020. *)
Lemma nothing_selected_witness :
  page_filtered_df
    (render scenario_ds
            {| year_range := (2021, 2020); job_cats := ["A"; "B"];
               industries := ["X"; "Y"] |}) = [].
Proof.
  apply nothing_selected. right. simpl. lia.
Defined.

(** ** The text of the "Total Job Openings" metric (line 71) *)

From Stdlib Require DecimalString DecimalZ DecimalPos.

(** The [,] of the format specification: walking the digits from the
    last one, a comma goes in after every third digit that has a digit
    before it.  [k] digits are still to pass before the next comma. *)
Fixpoint sep (k : nat) (l : list ascii) : list ascii :=
  match l with
  | [] => []
  | d :: l' =>
      match k with
      | O => ","%char :: d :: sep 2 l'
      | S k' => d :: sep k' l'
      end
  end.

Definition group3 (digits : string) : string :=
  string_of_list_ascii (rev (sep 3 (rev (list_ascii_of_string digits)))).

(** [f"{n:,}"] for an integer [n]: the sign, then the decimal digits in
    groups of three. *)
Definition format_thousands (n : Z) : string :=
  match DecimalString.NilZero.string_of_int (Z.to_int n) with
  | String a ds =>
      if Ascii.eqb a "-" then String a (group3 ds) else group3 (String a ds)
  | EmptyString => EmptyString
  end.

(** The text shown by [st.metric("Total Job Openings", ...)]. *)
Definition total_openings_text (p : Page) : string :=
  format_thousands (page_total_openings p).

Fixpoint remove_commas (s : string) : string :=
  match s with
  | EmptyString => EmptyString
  | String a s' =>
      if Ascii.eqb a "," then remove_commas s' else String a (remove_commas s')
  end.

(** Reading a decimal numeral back, as [int(...)] does. *)
Definition parse_int (s : string) : option Z :=
  option_map Z.of_int (DecimalString.NilZero.int_of_string s).

Definition not_comma (a : ascii) : bool := negb (Ascii.eqb a ",").

Lemma remove_commas_filter (s : string) :
  remove_commas s =
  string_of_list_ascii (List.filter not_comma (list_ascii_of_string s)).
Proof.
  induction s as [|a s IH]; simpl; [reflexivity|].
  unfold not_comma at 1. destruct (Ascii.eqb a ","); simpl; rewrite IH; reflexivity.
Qed.

Lemma sep_filter (k : nat) (l : list ascii) :
  List.filter not_comma (sep k l) = List.filter not_comma l.
Proof.
  revert k. induction l as [|d l IH]; intros k; simpl; [reflexivity|].
  destruct k as [|k]; simpl; rewrite IH; reflexivity.
Qed.

Lemma filter_all {A} (f : A -> bool) (l : list A) :
  Forall (fun x => f x = true) l -> List.filter f l = l.
Proof.
  induction 1 as [|x l Hx Hl IH]; simpl; [reflexivity|].
  rewrite Hx, IH. reflexivity.
Qed.

Lemma remove_commas_group3 (ds : string) :
  Forall (fun a => not_comma a = true) (list_ascii_of_string ds) ->
  remove_commas (group3 ds) = ds.
Proof.
  intros Hd. rewrite remove_commas_filter. unfold group3.
  rewrite list_ascii_of_string_of_list_ascii.
  rewrite filter_rev, sep_filter, <- filter_rev, rev_involutive.
  rewrite (filter_all _ _ Hd). apply string_of_list_ascii_of_string.
Qed.

Lemma uint_digits_no_comma (d : Decimal.uint) :
  Forall (fun a => not_comma a = true)
         (list_ascii_of_string (DecimalString.NilEmpty.string_of_uint d)).
Proof.
  induction d; simpl; constructor; trivial.
Qed.

Lemma numeral_no_comma (d : Decimal.uint) :
  Forall (fun a => not_comma a = true)
         (list_ascii_of_string (DecimalString.NilZero.string_of_uint d)).
Proof.
  destruct d; try apply uint_digits_no_comma.
  simpl. constructor; [reflexivity|constructor].
Qed.

Lemma uint_first_not_minus (d : Decimal.uint) (a : ascii) (s : string) :
  DecimalString.NilZero.string_of_uint d = String a s -> Ascii.eqb a "-" = false.
Proof.
  destruct d; simpl; intros [= <- _]; reflexivity.
Qed.

Lemma remove_commas_format (n : Z) :
  remove_commas (format_thousands n) =
  DecimalString.NilZero.string_of_int (Z.to_int n).
Proof.
  unfold format_thousands.
  destruct (Z.to_int n) as [d|d]; simpl.
  - destruct (DecimalString.NilZero.string_of_uint d) as [|a s] eqn:E;
      [reflexivity|].
    rewrite (uint_first_not_minus d a s E).
    rewrite <- E. apply remove_commas_group3. apply numeral_no_comma.
  - rewrite remove_commas_group3 by apply numeral_no_comma. reflexivity.
Qed.

Lemma sep_length (k : nat) (l : list ascii) :
  (k <= 3)%nat ->
  List.length (sep k l) =
  (List.length l + (List.length l + 2 - k) / 3)%nat.
Proof.
  revert k. induction l as [|d l IH]; intros k Hk.
  - simpl. destruct k as [|[|[|[|k]]]]; try reflexivity; lia.
  - destruct k as [|k]; cbn [sep List.length].
    + rewrite IH by lia.
      replace (S (List.length l) + 2 - 0)%nat with (List.length l + 1 * 3)%nat by lia.
      rewrite Nat.div_add by lia.
      replace (List.length l + 2 - 2)%nat with (List.length l) by lia. lia.
    + rewrite IH by lia.
      replace (S (List.length l) + 2 - S k)%nat with (List.length l + 2 - k)%nat by lia.
      lia.
Qed.

(** X14: the text of the "Total Job Openings" metric is the decimal
    numeral of the total with commas put in: with the commas taken out
    it reads back as the total itself, for negative totals too. *)
Theorem total_openings_text_reads_back (ds : DataFrame) (fs : FilterState) :
  parse_int (remove_commas (total_openings_text (render ds fs))) =
  Some (page_total_openings (render ds fs)).
Proof.
  unfold total_openings_text, parse_int. rewrite remove_commas_format.
  rewrite DecimalString.NilZero.isi.
  - simpl. rewrite DecimalZ.of_to. reflexivity.
  - destruct (page_total_openings (render ds fs)); simpl; try discriminate.
    intros [= E]. apply (DecimalPos.Unsigned.to_uint_nonnil _ E).
  - destruct (page_total_openings (render ds fs)); simpl; try discriminate.
    intros [= E]. apply (DecimalPos.Unsigned.to_uint_nonnil _ E).
Qed.

(** X15: grouping a numeral of [n] digits puts in one comma for every
    full group of three digits that has a digit before it: the text is
    [(n - 1) / 3] characters longer than the numeral. *)
Theorem group3_length (digits : string) :
  String.length (group3 digits) =
  (String.length digits + (String.length digits - 1) / 3)%nat.
Proof.
  assert (Hlen : forall s, String.length s = List.length (list_ascii_of_string s)).
  { induction s as [|a s IH]; simpl; [reflexivity | rewrite IH; reflexivity]. }
  rewrite !Hlen. unfold group3.
  rewrite list_ascii_of_string_of_list_ascii, length_rev, sep_length by lia.
  rewrite length_rev.
  replace (List.length (list_ascii_of_string digits) + 2 - 3)%nat
    with (List.length (list_ascii_of_string digits) - 1)%nat by lia.
  reflexivity.
Qed.
